(** * Bloomberg terminal integration: real-time client and Excel connector

    A shallow embedding of [BloombergClient] (connectors/bloomberg-client.ts)
    and of the live-workbook part of [ExcelConnector]
    (connectors/excel/excel-connector.ts), with the properties of the
    subscription engine stated over it.

    Conventions.
    - A handler of the source becomes a function from the state before the
      call to the state after it together with the list of effects that the
      call performed, in program order (sockets created, messages sent,
      log lines, events emitted, callbacks invoked, timers armed).
    - The host's event loop is the list of events given to [run]: socket
      events, timer firings and calls of the public methods.
    - [Map] objects are insertion-ordered association lists ([JsMap]),
      since [Map.prototype.forEach] visits entries in insertion order and
      the order decides which callbacks run before an exception.
    - A subscription callback is caller code. In [Client] it returns or
      throws and does nothing else; [Reentrant] is the same client with
      callbacks that call [subscribe], [unsubscribe], [disconnect] or
      [isConnected] while a tick is dispatched, the walk of the registry
      then following the live map. *)

From Stdlib Require Import ZArith String Ascii Decimal DecimalString DecimalZ.
From stdpp Require Import base list.
Import ListNotations.

Set Warnings "-register-all".

Local Open Scope string_scope.
Local Open Scope list_scope.

(** ** Values produced by [JSON.parse] *)

Module Js.

(** A number is carried through the client and never inspected, so its
    payload is kept as an integer. *)
Inductive value : Type :=
| JUndefined
| JNull
| JBool (b : bool)
| JNum (n : Z)
| JStr (s : string)
| JArr (items : list value)
| JObj (props : list (string * value)).

Inductive error : Type :=
| TypeError (msg : string)
| UserError (msg : string).

(** Completion of a call: it returns or it throws. *)
Inductive completion (A : Type) : Type :=
| Normal (a : A)
| Thrown (e : error).
Arguments Normal {A} a.
Arguments Thrown {A} e.

Fixpoint own (p : string) (props : list (string * value)) : value :=
  match props with
  | [] => JUndefined
  | (k, v) :: rest => if String.eqb k p then v else own p rest
  end.

(** [v.p] for the property names the client reads ([type], [security],
    [ticker], [exchange], the price fields): none of them is defined on a
    prototype, so only an object's own properties answer; reading a
    property of [undefined] or [null] throws. *)
Definition field (v : value) (p : string) : value :=
  match v with
  | JObj props => own p props
  | _ => JUndefined
  end.

Definition get (v : value) (p : string) : completion value :=
  match v with
  | JUndefined | JNull =>
      Thrown (TypeError ("Cannot read properties of undefined or null: " ++ p))
  | _ => Normal (field v p)
  end.

(** [s === v] for a string [s]. *)
Definition strict_eq_string (s : string) (v : value) : bool :=
  match v with
  | JStr s' => String.eqb s s'
  | _ => false
  end.

(** [o === v] for an optional string [o] ([undefined] when absent). *)
Definition strict_eq_optional (o : option string) (v : value) : bool :=
  match o, v with
  | None, JUndefined => true
  | Some s, JStr s' => String.eqb s s'
  | _, _ => false
  end.

(** The value an optional string property reads as. *)
Definition of_optional (o : option string) : value :=
  match o with
  | None => JUndefined
  | Some s => JStr s
  end.

Definition nullish (v : value) : bool :=
  match v with
  | JUndefined | JNull => true
  | _ => false
  end.

Fixpoint has_own (p : string) (props : list (string * value)) : bool :=
  match props with
  | [] => false
  | (k, _) :: rest => if String.eqb k p then true else has_own p rest
  end.

(** Conversion to a primitive throws. For a value made by [JSON.parse] no
    property is callable: an object with an own [toString] has no usable
    [toString], and its inherited [valueOf] returns the object itself, so
    the conversion ends in a [TypeError]; an object without it prints as
    ["[object Object]"]. An array prints by joining its elements, each
    converted in turn unless it is [null]. *)
Fixpoint unprintable (v : value) : bool :=
  match v with
  | JObj props => has_own "toString" props
  | JArr items => existsb unprintable items
  | _ => false
  end.

(** [new Date(v)]: the date is kept as the argument it was made from. *)
Definition new_Date (v : value) : completion value :=
  if unprintable v
  then Thrown (TypeError "Cannot convert object to primitive value")
  else Normal v.

End Js.

(** ** Insertion-ordered [Map<string, V>] *)

Module JsMap.

Section Ops.
Context {V : Type}.

Fixpoint has (k : string) (m : list (string * V)) : bool :=
  match m with
  | [] => false
  | (k', _) :: rest => if String.eqb k' k then true else has k rest
  end.

Fixpoint get (k : string) (m : list (string * V)) : option V :=
  match m with
  | [] => None
  | (k', v) :: rest => if String.eqb k' k then Some v else get k rest
  end.

(** [m.set(k, v)]: an existing key keeps its position, a new key goes
    last. *)
Fixpoint set (k : string) (v : V) (m : list (string * V)) : list (string * V) :=
  match m with
  | [] => [(k, v)]
  | (k', v') :: rest =>
      if String.eqb k' k then (k', v) :: rest else (k', v') :: set k v rest
  end.

(** [m.delete(k)]. *)
Definition delete (k : string) (m : list (string * V)) : list (string * V) :=
  List.filter (fun e => negb (String.eqb (fst e) k)) m.

Definition keys (m : list (string * V)) : list string := map fst m.

Definition size (m : list (string * V)) : nat := length m.

End Ops.

End JsMap.

(** ** Types of the client (types/bloomberg.types.ts) *)

Module Bloomberg.

Inductive SecurityType : Type :=
| EQUITY | BOND | COMMODITY | CURRENCY | INDEX | FUTURE | OPTION.

Record SecurityIdentifier : Type := {
  ticker : string;
  exchange : option string;
  securityType : SecurityType;
  isin : option string;
  cusip : option string;
  sedol : option string
}.

(** The point built from a [marketData] message: every field is the value
    read from the message; [timestamp] holds the argument given to
    [new Date]. *)
Record MarketDataPoint : Type := {
  security : Js.value;
  timestamp : Js.value;
  last : Js.value;
  volume : Js.value;
  bid : Js.value;
  ask : Js.value;
  open : Js.value;
  high : Js.value;
  low : Js.value;
  close : Js.value;
  change : Js.value;
  changePercent : Js.value
}.

(** A callback is caller code: here it returns or throws, and makes no
    call into the client while a tick is dispatched. Callbacks that do are
    those of [Reentrant], whose message handler agrees with the one of
    [Client] on callbacks that make no call ([on_message_embed]). *)
Record BloombergSubscription : Type := {
  id : string;
  securities : list SecurityIdentifier;
  fields : list string;
  callback : MarketDataPoint -> Js.completion unit
}.

End Bloomberg.
Import Bloomberg.

(** ** [BloombergClient] *)

Module Client.

Inductive OutMsg : Type :=
| SubscribeMsg (id : string) (securities : list SecurityIdentifier) (fields : list string)
| UnsubscribeMsg (id : string).

Inductive Signal : Type :=
| Connected
| Disconnected
| ErrorSignal
| MarketData (dataPoint : MarketDataPoint).

Inductive Level : Type := Info | Warn | Error | Debug.

(** What the client does to its surroundings. [Emit] is the call of
    [emit] and [Invoked] the call of a subscription's callback; the
    listeners of the emitted events are not followed. *)
Inductive Effect : Type :=
| WsNew (socket : nat)
| WsSend (socket : nat) (msg : OutMsg)
| WsClose (socket : nat)
| SetTimeout (delay : Z)
| Emit (signal : Signal)
| Log (level : Level) (msg : string)
| Invoked (id : string) (dataPoint : MarketDataPoint).

(** Effects performed so far, and how the call completed. *)
Definition action (A : Type) : Type := (list Effect * Js.completion A)%type.

#[export] Instance action_ret : MRet action := fun A a => ([], Js.Normal a).

#[export] Instance action_bind : MBind action := fun A B k m =>
  match m with
  | (e1, Js.Normal a) => let '(e2, r) := k a in (e1 ++ e2, r)
  | (e1, Js.Thrown err) => (e1, Js.Thrown err)
  end.

Definition perform (e : Effect) : action unit := ([e], Js.Normal tt).

Definition lift {A : Type} (c : Js.completion A) : action A := ([], c).

(** The fields of the client object. *)
Record BloombergClient : Type := {
  wsClient : option nat;
  subscriptions : list (string * BloombergSubscription);
  connected : bool
}.

(** The client together with the part of the host it acts on: [sockets]
    counts the sockets created so far (the next one gets this number),
    [timers] the reconnect timeouts armed and not yet fired. *)
Record World : Type := {
  this : BloombergClient;
  sockets : nat;
  timers : nat
}.

Definition decimal (z : Z) : string := NilEmpty.string_of_int (Z.to_int z).

Definition with_this (w : World) (c : BloombergClient) : World :=
  {| this := c; sockets := sockets w; timers := timers w |}.

(** [initializeWebSocket]: a new socket replaces [wsClient]; its four
    handlers are the functions [on_open], [on_message], [on_error] and
    [on_close] below. *)
Definition initializeWebSocket (w : World) : World * list Effect :=
  ({| this := {| wsClient := Some (sockets w);
                 subscriptions := subscriptions (this w);
                 connected := connected (this w) |};
      sockets := S (sockets w);
      timers := timers w |},
   [WsNew (sockets w)]).

Definition new_client (enableWebSocket : bool) : World * list Effect :=
  let w := {| this := {| wsClient := None; subscriptions := []; connected := false |};
              sockets := 0; timers := 0 |} in
  if enableWebSocket then initializeWebSocket w else (w, []).

Definition on_open (w : World) : World * list Effect :=
  (with_this w {| wsClient := wsClient (this w);
                  subscriptions := subscriptions (this w);
                  connected := true |},
   [Log Info "WebSocket connection established"; Emit Connected]).

Definition on_error (w : World) : World * list Effect :=
  (w, [Log Error "WebSocket error"; Emit ErrorSignal]).

Definition on_close (w : World) : World * list Effect :=
  ({| this := {| wsClient := wsClient (this w);
                 subscriptions := subscriptions (this w);
                 connected := false |};
      sockets := sockets w;
      timers := S (timers w) |},
   [Log Warn "WebSocket connection closed"; Emit Disconnected; SetTimeout 5000]).

(** The armed timeout fires: [() => this.initializeWebSocket()]. *)
Definition on_timeout (w : World) : World * list Effect :=
  match timers w with
  | O => (w, [])
  | S n => initializeWebSocket {| this := this w; sockets := sockets w; timers := n |}
  end.

(** [matchesSecurity]: [Array.prototype.some] over the subscription's
    securities; [&&] reads [security.exchange] only after the tickers
    compared equal. *)
Fixpoint matchesSecurity (security : Js.value)
    (subscriptionSecurities : list SecurityIdentifier) : Js.completion bool :=
  match subscriptionSecurities with
  | [] => Js.Normal false
  | sub :: rest =>
      match Js.get security "ticker" with
      | Js.Thrown e => Js.Thrown e
      | Js.Normal t =>
          if Js.strict_eq_string (ticker sub) t then
            match Js.get security "exchange" with
            | Js.Thrown e => Js.Thrown e
            | Js.Normal x =>
                if Js.strict_eq_optional (exchange sub) x then Js.Normal true
                else matchesSecurity security rest
            end
          else matchesSecurity security rest
      end
  end.

Definition invoke (subscription : BloombergSubscription) (dataPoint : MarketDataPoint)
    : action unit :=
  ([Invoked (id subscription) dataPoint], callback subscription dataPoint).

(** [this.subscriptions.forEach(...)] of [handleWebSocketMessage]. *)
Fixpoint forEach_subscription (dataPoint : MarketDataPoint)
    (subs : list (string * BloombergSubscription)) : action unit :=
  match subs with
  | [] => mret tt
  | (_, subscription) :: rest =>
      m ← lift (matchesSecurity (security dataPoint) (securities subscription));
      _ ← (if m : bool then invoke subscription dataPoint else mret tt);
      forEach_subscription dataPoint rest
  end.

Definition point_of (message : Js.value) : MarketDataPoint :=
  {| security := Js.field message "security";
     timestamp := Js.field message "timestamp";
     last := Js.field message "last";
     volume := Js.field message "volume";
     bid := Js.field message "bid";
     ask := Js.field message "ask";
     open := Js.field message "open";
     high := Js.field message "high";
     low := Js.field message "low";
     close := Js.field message "close";
     change := Js.field message "change";
     changePercent := Js.field message "changePercent" |}.

(** The object literal of [handleWebSocketMessage]: the fields are read
    from the message, and [new Date(message.timestamp)] throws when the
    timestamp cannot be converted. *)
Definition dataPoint_of (message : Js.value) : Js.completion MarketDataPoint :=
  match Js.new_Date (Js.field message "timestamp") with
  | Js.Normal _ => Js.Normal (point_of message)
  | Js.Thrown e => Js.Thrown e
  end.

Definition handleWebSocketMessage (c : BloombergClient) (message : Js.value)
    : action unit :=
  ty ← lift (Js.get message "type");
  if Js.strict_eq_string "marketData" ty then
    dataPoint ← lift (dataPoint_of message);
    _ ← forEach_subscription dataPoint (subscriptions c);
    perform (Emit (MarketData dataPoint))
  else mret tt.

Definition subscriptionId (now : Z) (random : string) : string :=
  "sub_" ++ decimal now ++ "_" ++ random.

(** [subscribe]: [now] is the value of [Date.now()] and [random] the text
    of [Math.random().toString(36).substr(2, 9)] at the call. *)
Definition subscribe (now : Z) (random : string)
    (securities : list SecurityIdentifier) (fields : list string)
    (callback : MarketDataPoint -> Js.completion unit)
    (w : World) : World * list Effect * string :=
  let subscriptionId := subscriptionId now random in
  let subscription :=
    {| id := subscriptionId; securities := securities;
       fields := fields; callback := callback |} in
  let c := this w in
  (with_this w {| wsClient := wsClient c;
                  subscriptions := JsMap.set subscriptionId subscription (subscriptions c);
                  connected := connected c |},
   match wsClient c, connected c with
   | Some s, true => [WsSend s (SubscribeMsg subscriptionId securities fields)]
   | _, _ => []
   end ++
   [Log Info ("Created subscription " ++ subscriptionId ++ " for "
              ++ decimal (Z.of_nat (length securities)) ++ " securities")],
   subscriptionId).

Definition unsubscribe (subscriptionId : string) (w : World) : World * list Effect :=
  let c := this w in
  if JsMap.has subscriptionId (subscriptions c) then
    (with_this w {| wsClient := wsClient c;
                    subscriptions := JsMap.delete subscriptionId (subscriptions c);
                    connected := connected c |},
     match wsClient c, connected c with
     | Some s, true => [WsSend s (UnsubscribeMsg subscriptionId)]
     | _, _ => []
     end ++
     [Log Info ("Removed subscription " ++ subscriptionId)])
  else (w, []).

(** [this.subscriptions.forEach((_, id) => this.unsubscribe(id))]: every
    entry present at the start is visited once, the visit deleting it. *)
Fixpoint unsubscribe_each (ids : list string) (w : World) : World * list Effect :=
  match ids with
  | [] => (w, [])
  | id :: rest =>
      let '(w1, e1) := unsubscribe id w in
      let '(w2, e2) := unsubscribe_each rest w1 in
      (w2, e1 ++ e2)
  end.

Definition disconnect (w : World) : World * list Effect :=
  let '(w1, e1) :=
    match wsClient (this w) with
    | Some s =>
        let '(w', e) := unsubscribe_each (JsMap.keys (subscriptions (this w))) w in
        (with_this w' {| wsClient := None;
                         subscriptions := subscriptions (this w');
                         connected := connected (this w') |},
         e ++ [WsClose s])
    | None => (w, [])
    end in
  (with_this w1 {| wsClient := wsClient (this w1);
                   subscriptions := subscriptions (this w1);
                   connected := false |},
   e1 ++ [Log Info "Disconnected from Bloomberg Terminal"]).

Definition isConnected (w : World) : bool := connected (this w).

(** What the host delivers to the client: socket events, the reconnect
    timeout, and calls of the public methods. *)
Inductive Event : Type :=
| WsOpen
| WsMessage (data : string)
| WsError
| WsClosed
| TimeoutFired
| CallSubscribe (now : Z) (random : string)
    (securities : list SecurityIdentifier) (fields : list string)
    (callback : MarketDataPoint -> Js.completion unit)
| CallUnsubscribe (subscriptionId : string)
| CallDisconnect.

Section Handlers.

(** [JSON.parse] of the host: [None] when it throws a [SyntaxError]. *)
Variable JSON_parse : string -> option Js.value.

Definition parse_failure : Effect := Log Error "Failed to parse WebSocket message".

(** The ['message'] handler: [try { parse; handle } catch { log }]. *)
Definition on_message (data : string) (w : World) : World * list Effect :=
  match JSON_parse data with
  | None => (w, [parse_failure])
  | Some message =>
      match handleWebSocketMessage (this w) message with
      | (effects, Js.Normal _) => (w, effects)
      | (effects, Js.Thrown _) => (w, effects ++ [parse_failure])
      end
  end.

Definition step (w : World) (ev : Event) : World * list Effect :=
  match ev with
  | WsOpen => on_open w
  | WsMessage data => on_message data w
  | WsError => on_error w
  | WsClosed => on_close w
  | TimeoutFired => on_timeout w
  | CallSubscribe now random securities fields callback =>
      fst (subscribe now random securities fields callback w)
  | CallUnsubscribe subscriptionId => unsubscribe subscriptionId w
  | CallDisconnect => disconnect w
  end.

Fixpoint run (w : World) (evs : list Event) : World * list Effect :=
  match evs with
  | [] => (w, [])
  | ev :: rest =>
      let '(w1, e1) := step w ev in
      let '(w2, e2) := run w1 rest in
      (w2, e1 ++ e2)
  end.

End Handlers.

(** Projections of an effect list. *)
Definition sent (effects : list Effect) : list (nat * OutMsg) :=
  omap (fun e => match e with WsSend s m => Some (s, m) | _ => None end) effects.


(** The character [c] does not occur in [s]. *)
Fixpoint free_of (c : ascii) (s : string) : Prop :=
  match s with
  | EmptyString => True
  | String a rest => a <> c /\ free_of c rest
  end.

(** What [subscribe] and [unsubscribe] maintain: keys are unique, as in
    any [Map], and every subscription is stored under its own [id]. *)
Definition registry_wf (subs : list (string * BloombergSubscription)) : Prop :=
  NoDup (JsMap.keys subs) /\ Forall (fun e => id (snd e) = fst e) subs.

End Client.

(** ** [ExcelConnector]: live workbooks *)

Module Excel.

(** types/excel.types.ts *)
Record ExcelConfig : Type := {
  autoRefresh : bool;
  refreshInterval : Z
}.

Record LiveDataRange : Type := {
  workbook : string;
  worksheet : string;
  range : string;
  securities : list string;
  fields : list string;
  updateFrequency : Z
}.

Record ExcelConnectionStatus : Type := {
  connected : bool;
  lastUpdate : Z;
  activeRanges : nat
}.

(** An [ExcelJS.Workbook]; the live-workbook code never adds to it. *)
Inductive Workbook : Type := NewWorkbook.

Inductive Signal : Type :=
| LiveDataUpdate (rangeId : string) (data : MarketDataPoint)
| WorkbookRefreshed (workbookId filePath : string).

Inductive Effect : Type :=
| OfClient (e : Client.Effect)
| SetInterval (handle : nat) (period : Z)
| ClearInterval (handle : nat)
| WriteFile (workbookId filePath : string)
| Emit (signal : Signal)
| Log (level : Client.Level) (msg : string).

(** What an interval runs: [refreshLiveWorkbook(workbookId, filePath)]. *)
Record Task : Type := {
  task_workbook : string;
  task_file : string
}.

(** The fields of the connector object. *)
Record ExcelConnector : Type := {
  config : ExcelConfig;
  activeWorkbooks : list (string * Workbook);
  liveRanges : list (string * LiveDataRange);
  updateIntervals : list (string * nat)
}.

(** The connector, the [BloombergClient] object it shares with its caller,
    and the intervals of the host that are armed: [handles] counts the
    handles given out so far. *)
Record World : Type := {
  this : ExcelConnector;
  bloombergClient : Client.World;
  intervals : list (nat * Task);
  handles : nat
}.

(** [config.autoRefresh ?? false], [config.refreshInterval ?? 5000]. *)
Definition new_connector (bloombergClient : Client.World)
    (autoRefresh : option bool) (refreshInterval : option Z) : World :=
  {| this := {| config := {| autoRefresh := default false autoRefresh;
                             refreshInterval := default 5000%Z refreshInterval |};
                activeWorkbooks := []; liveRanges := []; updateIntervals := [] |};
     bloombergClient := bloombergClient;
     intervals := [];
     handles := 0 |}.

Fixpoint task_of (handle : nat) (armed : list (nat * Task)) : option Task :=
  match armed with
  | [] => None
  | (h, t) :: rest => if Nat.eqb h handle then Some t else task_of handle rest
  end.

(** [clearInterval(handle)]. *)
Definition clear (handle : nat) (armed : list (nat * Task)) : list (nat * Task) :=
  List.filter (fun e => negb (Nat.eqb (fst e) handle)) armed.

(** [updateLiveRange], the body of the callback given to [subscribe]. *)
Definition updateLiveRange (rangeId : string) (data : MarketDataPoint) : list Effect :=
  [Emit (LiveDataUpdate rangeId data)].

(** One round of [ranges.forEach] in [createLiveWorkbook]; [now] and
    [random] are the clock reading and random suffix that [subscribe]
    draws. The identifier that [subscribe] returns is bound to a local
    and not stored. The callback handed to [subscribe] runs
    [updateLiveRange], which returns. *)
Definition add_range (workbookId filePath : string) (w : World)
    (entry : LiveDataRange * (Z * string)) : World * list Effect :=
  let '(r, (now, random)) := entry in
  let rangeId := (workbookId ++ "_" ++ worksheet r)%string in
  let '(client, sent, subscription) :=
    Client.subscribe now random
      (map (fun ticker => {| Bloomberg.ticker := ticker; exchange := None;
                             securityType := EQUITY;
                             isin := None; cusip := None; sedol := None |})
           (securities r))
      (fields r) (fun _ => Js.Normal tt) (bloombergClient w) in
  let c := this w in
  if autoRefresh (config c) then
    ({| this := {| config := config c;
                   activeWorkbooks := activeWorkbooks c;
                   liveRanges := JsMap.set rangeId r (liveRanges c);
                   updateIntervals := JsMap.set rangeId (handles w) (updateIntervals c) |};
        bloombergClient := client;
        intervals := intervals w ++ [(handles w, {| task_workbook := workbookId;
                                                    task_file := filePath |})];
        handles := S (handles w) |},
     map OfClient sent ++ [SetInterval (handles w) (updateFrequency r)])
  else
    ({| this := {| config := config c;
                   activeWorkbooks := activeWorkbooks c;
                   liveRanges := JsMap.set rangeId r (liveRanges c);
                   updateIntervals := updateIntervals c |};
        bloombergClient := client;
        intervals := intervals w;
        handles := handles w |},
     map OfClient sent).

Fixpoint add_ranges (workbookId filePath : string) (w : World)
    (ranges : list (LiveDataRange * (Z * string))) : World * list Effect :=
  match ranges with
  | [] => (w, [])
  | entry :: rest =>
      let '(w1, e1) := add_range workbookId filePath w entry in
      let '(w2, e2) := add_ranges workbookId filePath w1 rest in
      (w2, e1 ++ e2)
  end.

Definition createLiveWorkbook (workbookId : string)
    (ranges : list (LiveDataRange * (Z * string))) (filePath : string)
    (w : World) : World * list Effect :=
  let c := this w in
  let w0 := {| this := {| config := config c;
                          activeWorkbooks := JsMap.set workbookId NewWorkbook (activeWorkbooks c);
                          liveRanges := liveRanges c;
                          updateIntervals := updateIntervals c |};
               bloombergClient := bloombergClient w;
               intervals := intervals w;
               handles := handles w |} in
  let '(w1, e1) := add_ranges workbookId filePath w0 ranges in
  (w1, e1 ++ [Log Client.Info ("Created live workbook: " ++ workbookId ++ " with "
                               ++ Client.decimal (Z.of_nat (length ranges)) ++ " ranges")]).

(** Outcome of [workbook.xlsx.writeFile(filePath)]. *)
Inductive WriteResult : Type := Written | WriteError (msg : string).

(** The [try] block of [refreshLiveWorkbook]. *)
Definition refresh_body (workbookId filePath : string) (write : WriteResult)
    (c : ExcelConnector) : list Effect * Js.completion unit :=
  match JsMap.get workbookId (activeWorkbooks c) with
  | None => ([], Js.Thrown (Js.UserError ("Workbook not found: " ++ workbookId)))
  | Some _ =>
      match write with
      | WriteError msg => ([WriteFile workbookId filePath], Js.Thrown (Js.UserError msg))
      | Written =>
          ([WriteFile workbookId filePath;
            Log Client.Debug ("Refreshed live workbook: " ++ workbookId);
            Emit (WorkbookRefreshed workbookId filePath)],
           Js.Normal tt)
      end
  end.

(** [refreshLiveWorkbook]: the [catch] clause logs and does not rethrow. *)
Definition refreshLiveWorkbook (workbookId filePath : string) (write : WriteResult)
    (w : World) : World * list Effect * Js.completion unit :=
  match refresh_body workbookId filePath write (this w) with
  | (effects, Js.Normal u) => (w, effects, Js.Normal u)
  | (effects, Js.Thrown _) =>
      (w, effects ++ [Log Client.Error "Failed to refresh live workbook"], Js.Normal tt)
  end.

(** An armed interval fires: [async () => { await this.refreshLiveWorkbook(...) }];
    a cleared handle does not fire. *)
Definition on_interval (handle : nat) (write : WriteResult) (w : World)
    : World * list Effect * Js.completion unit :=
  match task_of handle (intervals w) with
  | None => (w, [], Js.Normal tt)
  | Some t => refreshLiveWorkbook (task_workbook t) (task_file t) write w
  end.

(** The [forEach] of [closeLiveWorkbook]: every entry of [updateIntervals]
    is visited; one whose key starts with [workbookId] has its interval
    cleared and is deleted. *)
Fixpoint clear_matching (workbookId : string) (entries : list (string * nat))
    (armed : list (nat * Task)) : list (string * nat) * list (nat * Task) * list Effect :=
  match entries with
  | [] => ([], armed, [])
  | (rangeId, interval) :: rest =>
      if String.prefix workbookId rangeId then
        let '(kept, armed', e) := clear_matching workbookId rest (clear interval armed) in
        (kept, armed', ClearInterval interval :: e)
      else
        let '(kept, armed', e) := clear_matching workbookId rest armed in
        ((rangeId, interval) :: kept, armed', e)
  end.

Definition closeLiveWorkbook (workbookId : string) (w : World) : World * list Effect :=
  let c := this w in
  let '(kept, armed, e) := clear_matching workbookId (updateIntervals c) (intervals w) in
  ({| this := {| config := config c;
                 activeWorkbooks := JsMap.delete workbookId (activeWorkbooks c);
                 liveRanges := liveRanges c;
                 updateIntervals := kept |};
      bloombergClient := bloombergClient w;
      intervals := armed;
      handles := handles w |},
   e ++ [Log Client.Info ("Closed live workbook: " ++ workbookId)]).

(** [getStatus]; [now] is the reading of [new Date()]. *)
Definition getStatus (now : Z) (w : World) : ExcelConnectionStatus :=
  {| connected := Client.isConnected (bloombergClient w);
     lastUpdate := now;
     activeRanges := JsMap.size (liveRanges (this w)) |}.

Definition disconnect (w : World) : World * list Effect :=
  let c := this w in
  ({| this := {| config := config c; activeWorkbooks := [];
                 liveRanges := []; updateIntervals := [] |};
      bloombergClient := bloombergClient w;
      intervals := fold_left (fun armed e => clear (snd e) armed) (updateIntervals c) (intervals w);
      handles := handles w |},
   map (fun e => ClearInterval (snd e)) (updateIntervals c)
   ++ [Log Client.Info "Excel connector disconnected"]).

(** Messages the connector caused the client to send. *)
Definition sent (effects : list Effect) : list (nat * Client.OutMsg) :=
  omap (fun e => match e with
                 | OfClient (Client.WsSend s m) => Some (s, m)
                 | _ => None
                 end) effects.

End Excel.

(** ** Sample data used by the concrete checks *)

Module Sample.
Import Client.

Definition equity (t : string) (e : option string) : SecurityIdentifier :=
  {| ticker := t; exchange := e; securityType := EQUITY;
     isin := None; cusip := None; sedol := None |}.

Definition returns : MarketDataPoint -> Js.completion unit :=
  fun _ => Js.Normal tt.

Definition throws : MarketDataPoint -> Js.completion unit :=
  fun _ => Js.Thrown (Js.UserError "callback failed").

Definition AAPL_NASDAQ : Js.value :=
  Js.JObj [("ticker", Js.JStr "AAPL"); ("exchange", Js.JStr "NASDAQ")].

Definition AAPL_only : Js.value := Js.JObj [("ticker", Js.JStr "AAPL")].

Definition tick_AAPL : Js.value :=
  Js.JObj [("type", Js.JStr "marketData"); ("security", AAPL_NASDAQ);
           ("timestamp", Js.JNum 1700000000000); ("last", Js.JNum 150)].

Definition tick_MSFT : Js.value :=
  Js.JObj [("type", Js.JStr "marketData");
           ("security", Js.JObj [("ticker", Js.JStr "MSFT"); ("exchange", Js.JStr "NASDAQ")]);
           ("timestamp", Js.JNum 1700000000001); ("last", Js.JNum 410)].

Definition heartbeat : Js.value := Js.JObj [("type", Js.JStr "heartbeat")].

(** A parser for the sample payloads; any other text is a syntax error. *)
Definition sample_parse (data : string) : option Js.value :=
  if String.eqb data "tick AAPL" then Some tick_AAPL
  else if String.eqb data "tick MSFT" then Some tick_MSFT
  else if String.eqb data "heartbeat" then Some heartbeat
  else if String.eqb data "null" then Some Js.JNull
  else None.

(** The client right after construction with [enableWebSocket]. *)
Definition fresh : World := fst (new_client true).


(** A connected client with two subscriptions to AAPL on NASDAQ, the
    first of which lists the security twice, and one to MSFT. *)
Definition three_subscribers : World :=
  fst (run sample_parse fresh
         [WsOpen;
          CallSubscribe 1 "a" [equity "AAPL" (Some "NASDAQ"); equity "AAPL" (Some "NASDAQ")]
            ["last"] returns;
          CallSubscribe 2 "b" [equity "AAPL" (Some "NASDAQ")] ["last"] returns;
          CallSubscribe 3 "c" [equity "MSFT" (Some "NASDAQ")] ["last"] returns]).

(** The same registry when the callback of the first subscription throws. *)
Definition failing_first : World :=
  fst (run sample_parse fresh
         [WsOpen;
          CallSubscribe 1 "a" [equity "AAPL" (Some "NASDAQ")] ["last"] throws;
          CallSubscribe 2 "b" [equity "AAPL" (Some "NASDAQ")] ["last"] returns]).

(** A connector with [autoRefresh] on, sharing a connected client, and the
    live range of examples/live-updates.ts cut down to one security. *)
Definition connector : Excel.World :=
  Excel.new_connector (fst (run sample_parse fresh [WsOpen])) (Some true) (Some 5000%Z).

Definition tech_stocks : Excel.LiveDataRange :=
  {| Excel.workbook := "live-market-data"; Excel.worksheet := "Tech Stocks";
     Excel.range := "A1:F10"; Excel.securities := ["AAPL"];
     Excel.fields := ["PX_LAST"]; Excel.updateFrequency := 5000 |}.

Definition live : Excel.World * list Excel.Effect :=
  Excel.createLiveWorkbook "live-market-data"
    [(tech_stocks, (1700000000000%Z, "4fzzzxjyl"))] "output/live-market-data.xlsx" connector.

End Sample.

(** ** Readings of event and effect lists *)

Module Trace.
Import Client.



(** Sockets created, in order. *)
Definition created (effects : list Effect) : list nat :=
  omap (fun e => match e with WsNew s => Some s | _ => None end) effects.

(** Close events among the events delivered. *)
Definition closes (evs : list Event) : nat :=
  length (List.filter (fun ev => match ev with WsClosed => true | _ => false end) evs).

(** The entries of the registry whose security list matches the tick. *)
Definition matching (dataPoint : MarketDataPoint)
    (subs : list (string * BloombergSubscription)) : list (string * BloombergSubscription) :=
  List.filter (fun e => match matchesSecurity (security dataPoint) (securities (snd e)) with
                        | Js.Normal true => true
                        | _ => false
                        end) subs.


Definition invoked_all (dataPoint : MarketDataPoint)
    (subs : list (string * BloombergSubscription)) : list Effect :=
  map (fun e => Invoked (id (snd e)) dataPoint) subs.

End Trace.

(** ** Further sample data *)

Module Sample2.
Import Client Sample.

(** A [marketData] message without a [security]. *)
Definition tick_bare : Js.value :=
  Js.JObj [("type", Js.JStr "marketData"); ("last", Js.JNum 150)].

(** The sample parser extended with the payloads of this section. *)
Definition sample_parse2 (data : string) : option Js.value :=
  if String.eqb data "tick bare" then Some tick_bare
  else sample_parse data.

End Sample2.

(** ** Interval handles of the connector *)

Module Handles.
Import Excel.

(** Every handle the connector remembers and every armed interval was
    given out before: handles come from the counter [handles]. *)
Definition fresh (w : World) : Prop :=
  Forall (fun e => (snd e < handles w)%nat) (updateIntervals (this w)) /\
  Forall (fun e => (fst e < handles w)%nat) (intervals w).

(** The handles remembered under range identifiers. *)
Definition remembered (w : World) : list nat := map snd (updateIntervals (this w)).

(** The subscription request that [createLiveWorkbook] makes for a range:
    tickers only, no exchange. *)
Definition request (r : LiveDataRange) : list SecurityIdentifier :=
  map (fun ticker => {| ticker := ticker; exchange := None; securityType := EQUITY;
                        isin := None; cusip := None; sedol := None |})
      (securities r).

(** The registration message for a range, on socket [s]. *)
Definition registration (s : nat) (entry : LiveDataRange * (Z * string))
    : nat * Client.OutMsg :=
  (s, Client.SubscribeMsg (Client.subscriptionId (fst (snd entry)) (snd (snd entry)))
        (request (fst entry)) (fields (fst entry))).

End Handles.

(** ** Sample data for the live workbooks *)

Module Sample3.
Import Sample.

Definition bonds : Excel.LiveDataRange :=
  {| Excel.workbook := "archive"; Excel.worksheet := "Bonds";
     Excel.range := "A1:C5"; Excel.securities := ["T10Y"; "BUND"];
     Excel.fields := ["PX_LAST"]; Excel.updateFrequency := 10000 |}.

(** The live workbook of [live] with a second workbook beside it. *)
Definition two_books : Excel.World :=
  fst (Excel.createLiveWorkbook "archive" [(bonds, (1700000000001%Z, "9qwertyui"))]
         "output/archive.xlsx" (fst live)).

(** The live workbook of [live] created a second time. *)
Definition recreated : Excel.World :=
  fst (Excel.createLiveWorkbook "live-market-data"
         [(tech_stocks, (1700000000002%Z, "a1b2c3d4e"))]
         "output/live-market-data.xlsx" (fst live)).

(** A connector on a client whose socket has not opened yet, as in
    examples/live-updates.ts. *)
Definition early_connector : Excel.World :=
  Excel.new_connector Sample.fresh (Some true) (Some 5000%Z).

End Sample3.

(** ** Request/response calls of the client: error handling *)

Module Http.

(** [v] in a boolean position. *)
Definition truthy (v : Js.value) : bool :=
  match v with
  | Js.JUndefined | Js.JNull => false
  | Js.JBool b => b
  | Js.JNum n => negb (Z.eqb n 0)
  | Js.JStr s => negb (String.eqb s "")
  | Js.JArr _ | Js.JObj _ => true
  end.

(** [a || b]. *)
Definition or_else (a b : Js.value) : Js.value := if truthy a then a else b.

(** [v?.p]. *)
Definition optional (v : Js.value) (p : string) : Js.value :=
  if Js.nullish v then Js.JUndefined else Js.field v p.

(** What [handleError] reads of the value it caught. The values thrown in
    the [try] blocks are error objects: the rejection of the HTTP call,
    which has a [message] and, when the server answered, a [response]
    whose body is kept here, and the [TypeError] of a property read, which
    has a [message] only. *)
Record Failure : Type := {
  failure_message : string;
  failure_response : option Js.value
}.

Record BloombergError : Type := {
  code : Js.value;
  message : Js.value;
  timestamp : Z
}.

Record BloombergResponse : Type := {
  success : bool;
  data : option Js.value;
  error : option BloombergError
}.

Inductive Effect : Type :=
| Post (url : string) (securities : list SecurityIdentifier) (fields : list string)
| Get (url : string) (query : string) (limit : Z)
| LogError (msg : string) (e : BloombergError).

(** [error.response?.data]. *)
Definition body_of (err : Failure) : Js.value :=
  match failure_response err with
  | Some body => body
  | None => Js.JUndefined
  end.

(** [handleError]; [now] is the reading of [new Date()]. *)
Definition handleError (now : Z) (err : Failure) : BloombergResponse * list Effect :=
  let bloombergError :=
    {| code := or_else (optional (body_of err) "code") (Js.JStr "UNKNOWN_ERROR");
       message := or_else (optional (body_of err) "message") (Js.JStr (failure_message err));
       timestamp := now |} in
  ({| success := false; data := None; error := Some bloombergError |},
   [LogError "Bloomberg API error" bloombergError]).

(** How the awaited HTTP call ends: with the body of the response, or
    rejected. *)
Inductive Outcome : Type :=
| Resolved (body : Js.value)
| Rejected (err : Failure).

(** The part after the request that [getReferenceData] and
    [searchSecurities] share: [response.data.data] inside [try], the
    [catch] handing the error to [handleError]. *)
Definition respond (now : Z) (outcome : Outcome) : BloombergResponse * list Effect :=
  match outcome with
  | Rejected err => handleError now err
  | Resolved body =>
      match Js.get body "data" with
      | Js.Normal d => ({| success := true; data := Some d; error := None |}, [])
      | Js.Thrown (Js.TypeError msg)
      | Js.Thrown (Js.UserError msg) =>
          handleError now {| failure_message := msg; failure_response := None |}
      end
  end.

Definition getReferenceData (now : Z) (securities : list SecurityIdentifier)
    (fields : list string) (outcome : Outcome) : BloombergResponse * list Effect :=
  let '(r, e) := respond now outcome in
  (r, Post "/api/v1/reference-data" securities fields :: e).

(** [searchSecurities(query, limit = 10)]. *)
Definition searchSecurities (now : Z) (query : string) (limit : option Z)
    (outcome : Outcome) : BloombergResponse * list Effect :=
  let '(r, e) := respond now outcome in
  (r, Get "/api/v1/securities/search" query (default 10%Z limit) :: e).

End Http.

(** ** [BloombergClient] with callbacks that call back into the client

    A callback is caller code and may use the client it was given to:
    [Script] is what it does to the client through [subscribe],
    [unsubscribe], [disconnect] and [isConnected] before it returns or
    throws. [Map.prototype.forEach] walks the live map: an entry deleted
    before its turn is skipped, an entry added during the walk is visited,
    an entry whose value is replaced is visited with its new value. The
    methods are those of [Client], over a registry of such callbacks. *)

Module Reentrant.

Inductive Script : Type :=
| Return
| Throw (e : Js.error)
| Subscribe (now : Z) (random : string)
    (securities : list SecurityIdentifier) (fields : list string)
    (callback : MarketDataPoint -> Script) (next : Script)
| Unsubscribe (subscriptionId : string) (next : Script)
| Disconnect (next : Script)
| IsConnected (next : bool -> Script).

Record Subscription : Type := {
  id : string;
  securities : list SecurityIdentifier;
  fields : list string;
  callback : MarketDataPoint -> Script
}.

Record BloombergClient : Type := {
  wsClient : option nat;
  subscriptions : list (string * Subscription);
  connected : bool
}.

Record World : Type := {
  this : BloombergClient;
  sockets : nat;
  timers : nat
}.

Definition with_this (w : World) (c : BloombergClient) : World :=
  {| this := c; sockets := sockets w; timers := timers w |}.

Definition subscribe (now : Z) (random : string)
    (securities : list SecurityIdentifier) (fields : list string)
    (callback : MarketDataPoint -> Script)
    (w : World) : World * list Client.Effect * string :=
  let subscriptionId := Client.subscriptionId now random in
  let subscription :=
    {| id := subscriptionId; securities := securities;
       fields := fields; callback := callback |} in
  let c := this w in
  (with_this w {| wsClient := wsClient c;
                  subscriptions := JsMap.set subscriptionId subscription (subscriptions c);
                  connected := connected c |},
   match wsClient c, connected c with
   | Some s, true =>
       [Client.WsSend s (Client.SubscribeMsg subscriptionId securities fields)]
   | _, _ => []
   end ++
   [Client.Log Client.Info
      ("Created subscription " ++ subscriptionId ++ " for "
       ++ Client.decimal (Z.of_nat (length securities)) ++ " securities")],
   subscriptionId).

Definition unsubscribe (subscriptionId : string) (w : World) : World * list Client.Effect :=
  let c := this w in
  if JsMap.has subscriptionId (subscriptions c) then
    (with_this w {| wsClient := wsClient c;
                    subscriptions := JsMap.delete subscriptionId (subscriptions c);
                    connected := connected c |},
     match wsClient c, connected c with
     | Some s, true => [Client.WsSend s (Client.UnsubscribeMsg subscriptionId)]
     | _, _ => []
     end ++
     [Client.Log Client.Info ("Removed subscription " ++ subscriptionId)])
  else (w, []).

Fixpoint unsubscribe_each (ids : list string) (w : World) : World * list Client.Effect :=
  match ids with
  | [] => (w, [])
  | i :: rest =>
      let '(w1, e1) := unsubscribe i w in
      let '(w2, e2) := unsubscribe_each rest w1 in
      (w2, e1 ++ e2)
  end.

Definition disconnect (w : World) : World * list Client.Effect :=
  let '(w1, e1) :=
    match wsClient (this w) with
    | Some s =>
        let '(w', e) := unsubscribe_each (JsMap.keys (subscriptions (this w))) w in
        (with_this w' {| wsClient := None;
                         subscriptions := subscriptions (this w');
                         connected := connected (this w') |},
         e ++ [Client.WsClose s])
    | None => (w, [])
    end in
  (with_this w1 {| wsClient := wsClient (this w1);
                   subscriptions := subscriptions (this w1);
                   connected := false |},
   e1 ++ [Client.Log Client.Info "Disconnected from Bloomberg Terminal"]).

(** A callback runs during the walk: [remaining] are the entries of the
    map that the walk has still to visit, in order. [set] on a key the map
    holds replaces the value where the entry stands, so an entry already
    visited is not visited again; on a new key it adds an entry at the end.
    [disconnect] deletes every entry when the client holds a socket. *)
Fixpoint exec (s : Script) (w : World) (remaining : list (string * Subscription))
    : World * list (string * Subscription) * list Client.Effect * Js.completion unit :=
  match s with
  | Return => (w, remaining, [], Js.Normal tt)
  | Throw e => (w, remaining, [], Js.Thrown e)
  | Subscribe now random secs flds cb next =>
      let k := Client.subscriptionId now random in
      let entry := {| id := k; securities := secs; fields := flds; callback := cb |} in
      let remaining1 :=
        if JsMap.has k (subscriptions (this w)) && negb (JsMap.has k remaining)
        then remaining
        else JsMap.set k entry remaining in
      let '(w1, e1, _) := subscribe now random secs flds cb w in
      let '(w2, remaining2, e2, c) := exec next w1 remaining1 in
      (w2, remaining2, e1 ++ e2, c)
  | Unsubscribe k next =>
      let '(w1, e1) := unsubscribe k w in
      let '(w2, remaining2, e2, c) := exec next w1 (JsMap.delete k remaining) in
      (w2, remaining2, e1 ++ e2, c)
  | Disconnect next =>
      let remaining1 :=
        match wsClient (this w) with
        | Some _ => []
        | None => remaining
        end in
      let '(w1, e1) := disconnect w in
      let '(w2, remaining2, e2, c) := exec next w1 remaining1 in
      (w2, remaining2, e1 ++ e2, c)
  | IsConnected next => exec (next (connected (this w))) w remaining
  end.

(** How many entries a callback can add, counting those that the
    callbacks of the added entries add in turn for the same tick. *)
Fixpoint weight (dataPoint : MarketDataPoint) (s : Script) : nat :=
  match s with
  | Return => 0
  | Throw _ => 0
  | Subscribe _ _ _ _ cb next => S (weight dataPoint (cb dataPoint) + weight dataPoint next)
  | Unsubscribe _ next => weight dataPoint next
  | Disconnect next => weight dataPoint next
  | IsConnected next => Nat.max (weight dataPoint (next true)) (weight dataPoint (next false))
  end.

(** A bound on the visits of a walk over [entries]. *)
Fixpoint budget (dataPoint : MarketDataPoint) (entries : list (string * Subscription)) : nat :=
  match entries with
  | [] => 0
  | e :: rest => S (weight dataPoint (callback (snd e) dataPoint) + budget dataPoint rest)
  end.

(** The walk, at most [fuel] visits. *)
Fixpoint visit (fuel : nat) (dataPoint : MarketDataPoint) (w : World)
    (remaining : list (string * Subscription))
    : World * list Client.Effect * Js.completion unit :=
  match remaining, fuel with
  | [], _ => (w, [], Js.Normal tt)
  | _ :: _, O => (w, [], Js.Normal tt)
  | (_, subscription) :: rest, S fuel' =>
      match Client.matchesSecurity (Bloomberg.security dataPoint) (securities subscription) with
      | Js.Thrown e => (w, [], Js.Thrown e)
      | Js.Normal false => visit fuel' dataPoint w rest
      | Js.Normal true =>
          let '(w1, rest1, e1, c) := exec (callback subscription dataPoint) w rest in
          match c with
          | Js.Thrown e => (w1, Client.Invoked (id subscription) dataPoint :: e1, Js.Thrown e)
          | Js.Normal _ =>
              let '(w2, e2, c2) := visit fuel' dataPoint w1 rest1 in
              (w2, Client.Invoked (id subscription) dataPoint :: e1 ++ e2, c2)
          end
      end
  end.

(** [this.subscriptions.forEach(...)]: the budget is never used up
    ([visit_never_runs_out]). *)
Definition forEach_subscription (dataPoint : MarketDataPoint) (w : World)
    : World * list Client.Effect * Js.completion unit :=
  visit (budget dataPoint (subscriptions (this w))) dataPoint w (subscriptions (this w)).

Definition handleWebSocketMessage (w : World) (message : Js.value)
    : World * list Client.Effect * Js.completion unit :=
  match Js.get message "type" with
  | Js.Thrown e => (w, [], Js.Thrown e)
  | Js.Normal ty =>
      if Js.strict_eq_string "marketData" ty then
        match Client.dataPoint_of message with
        | Js.Thrown e => (w, [], Js.Thrown e)
        | Js.Normal dataPoint =>
            let '(w1, e1, c) := forEach_subscription dataPoint w in
            match c with
            | Js.Thrown e => (w1, e1, Js.Thrown e)
            | Js.Normal _ =>
                (w1, e1 ++ [Client.Emit (Client.MarketData dataPoint)], Js.Normal tt)
            end
        end
      else (w, [], Js.Normal tt)
  end.

Definition on_message (JSON_parse : string -> option Js.value) (data : string) (w : World)
    : World * list Client.Effect :=
  match JSON_parse data with
  | None => (w, [Client.parse_failure])
  | Some message =>
      match handleWebSocketMessage w message with
      | (w1, effects, Js.Normal _) => (w1, effects)
      | (w1, effects, Js.Thrown _) => (w1, effects ++ [Client.parse_failure])
      end
  end.


(** How a callback that makes no call completes. *)
Definition outcome (s : Script) : Js.completion unit :=
  match s with
  | Throw e => Js.Thrown e
  | _ => Js.Normal tt
  end.



(** A callback of [Client] as a script: it ends without a call. *)
Definition plain (cb : MarketDataPoint -> Js.completion unit) : MarketDataPoint -> Script :=
  fun dataPoint =>
    match cb dataPoint with
    | Js.Normal _ => Return
    | Js.Thrown e => Throw e
    end.

Definition embed (w : Client.World) : World :=
  {| this := {| wsClient := Client.wsClient (Client.this w);
                subscriptions :=
                  map (fun e => (fst e,
                                 {| id := Bloomberg.id (snd e);
                                    securities := Bloomberg.securities (snd e);
                                    fields := Bloomberg.fields (snd e);
                                    callback := plain (Bloomberg.callback (snd e)) |}))
                      (Client.subscriptions (Client.this w));
                connected := Client.connected (Client.this w) |};
     sockets := Client.sockets w;
     timers := Client.timers w |}.

End Reentrant.

(** ** Sample registries of callbacks that call back *)

Module Sample4.
Import Client Sample.

Definition opened : Reentrant.World :=
  Reentrant.embed (fst (run sample_parse fresh [WsOpen])).

Definition register (now : Z) (random : string) (securities : list SecurityIdentifier)
    (callback : MarketDataPoint -> Reentrant.Script) (w : Reentrant.World)
    : Reentrant.World :=
  fst (fst (Reentrant.subscribe now random securities ["last"] callback w)).



(** Two subscriptions to AAPL whose callbacks return, the second listing
    the security twice, and one to MSFT whose callback removes the first. *)
Definition three_scripts : Reentrant.World :=
  register 3 "c" [equity "MSFT" (Some "NASDAQ")]
      (fun _ => Reentrant.Unsubscribe "sub_1_a" Reentrant.Return)
    (register 2 "b" [equity "AAPL" (Some "NASDAQ"); equity "AAPL" (Some "NASDAQ")]
         (fun _ => Reentrant.Return)
       (register 1 "a" [equity "AAPL" (Some "NASDAQ")] (fun _ => Reentrant.Return) opened)).

(** A message whose timestamp is an object with an own [toString] that
    is not a function: [new Date] throws a [TypeError] on it. *)
Definition tick_undated : Js.value :=
  Js.JObj [("type", Js.JStr "marketData"); ("security", AAPL_NASDAQ);
           ("timestamp", Js.JObj [("valueOf", Js.JNum 0); ("toString", Js.JNum 0)]);
           ("last", Js.JNum 150)].

Definition sample_parse4 (data : string) : option Js.value :=
  if String.eqb data "tick undated" then Some tick_undated else sample_parse data.

End Sample4.

(** ** A registry whose second callback throws *)

Module Sample5.
Import Client Sample Sample4.


End Sample5.

(** * Properties *)

(** ** Values and maps *)

Lemma strict_eq_string_spec s v : Js.strict_eq_string s v = true <-> v = Js.JStr s.
Proof.
  destruct v; simpl; try (split; [discriminate | intros H; discriminate H]).
  rewrite String.eqb_eq. split; [intros ->; reflexivity | intros [= ->]; reflexivity].
Qed.

Lemma strict_eq_optional_spec o v :
  Js.strict_eq_optional o v = true <-> v = Js.of_optional o.
Proof.
  destruct o as [s|], v; simpl;
    try (split; [discriminate | intros H; discriminate H]);
    try (split; reflexivity).
  rewrite String.eqb_eq. split; [intros ->; reflexivity | intros [= ->]; reflexivity].
Qed.

Lemma get_not_nullish v p : Js.nullish v = false -> Js.get v p = Js.Normal (Js.field v p).
Proof. destruct v; simpl; intros H; try discriminate H; reflexivity. Qed.

Section JsMapFacts.
Context {V : Type}.
Implicit Types (m : list (string * V)) (k : string) (v : V).

Lemma has_delete k m : JsMap.has k (JsMap.delete k m) = false.
Proof.
  induction m as [|[k' v] m IH]; simpl; [reflexivity|].
  destruct (String.eqb k' k) eqn:E; simpl; [exact IH|].
  rewrite E. exact IH.
Qed.

Lemma delete_absent k m : JsMap.has k m = false -> JsMap.delete k m = m.
Proof.
  induction m as [|[k' v] m IH]; simpl; [reflexivity|].
  destruct (String.eqb k' k) eqn:E; simpl; [discriminate|].
  intros H. f_equal. exact (IH H).
Qed.

Lemma has_keys k m : JsMap.has k m = true <-> In k (JsMap.keys m).
Proof.
  induction m as [|[k' v] m IH]; simpl.
  - split; [discriminate | intros []].
  - destruct (String.eqb k' k) eqn:E.
    + apply String.eqb_eq in E. split; [left; exact E | reflexivity].
    + apply String.eqb_neq in E. rewrite IH. split; [right; assumption|].
      intros [H|H]; [contradiction | assumption].
Qed.

Lemma keys_delete k m :
  JsMap.keys (JsMap.delete k m) = List.filter (fun k' => negb (String.eqb k' k)) (JsMap.keys m).
Proof.
  induction m as [|[k' v] m IH]; simpl; [reflexivity|].
  destruct (String.eqb k' k); simpl; [exact IH | f_equal; exact IH].
Qed.

Lemma keys_set_present k v m : JsMap.has k m = true -> JsMap.keys (JsMap.set k v m) = JsMap.keys m.
Proof.
  induction m as [|[k' v'] m IH]; simpl; [discriminate|].
  destruct (String.eqb k' k); simpl; [reflexivity|].
  intros H. f_equal. exact (IH H).
Qed.

Lemma keys_set_absent k v m : JsMap.has k m = false -> JsMap.keys (JsMap.set k v m) = JsMap.keys m ++ [k].
Proof.
  induction m as [|[k' v'] m IH]; simpl; [reflexivity|].
  destruct (String.eqb k' k); simpl; [discriminate|].
  intros H. f_equal. exact (IH H).
Qed.

End JsMapFacts.

Section ClientProperties.
Import Client Sample.

(** ** Matching *)

Lemma matchesSecurity_some (v : Js.value) (subs : list SecurityIdentifier) :
  Js.nullish v = false ->
  matchesSecurity v subs =
    Js.Normal (existsb (fun sub =>
                 Js.strict_eq_string (ticker sub) (Js.field v "ticker")
                 && Js.strict_eq_optional (exchange sub) (Js.field v "exchange")) subs).
Proof.
  intros Hv. induction subs as [|sub rest IH]; simpl; [reflexivity|].
  rewrite !(get_not_nullish _ _ Hv).
  destruct (Js.strict_eq_string _ _); simpl; [|exact IH].
  destruct (Js.strict_eq_optional _ _); simpl; [reflexivity | exact IH].
Qed.


(** C2, as the code has it: a security that can be read (not [undefined]
    or [null]) matches a subscription's list exactly when some entry has the
    same ticker and the same exchange, where an omitted exchange equals only
    an omitted exchange; the exchange is compared in every case. *)
Theorem matchesSecurity_compares_ticker_and_exchange
    (v : Js.value) (subs : list SecurityIdentifier) :
  Js.nullish v = false ->
  exists b : bool,
    matchesSecurity v subs = Js.Normal b /\
    (b = true <->
     exists sub, In sub subs /\
       Js.field v "ticker" = Js.JStr (ticker sub) /\
       Js.field v "exchange" = Js.of_optional (exchange sub)).
Proof.
  intros Hv. eexists. split; [apply matchesSecurity_some; exact Hv|].
  rewrite existsb_exists. split.
  - intros (sub & Hin & Hb). apply andb_true_iff in Hb as [Ht He].
    exists sub. split; [exact Hin|]. split.
    + apply strict_eq_string_spec. exact Ht.
    + apply strict_eq_optional_spec. exact He.
  - intros (sub & Hin & Ht & He). exists sub. split; [exact Hin|].
    apply andb_true_iff. split.
    + apply strict_eq_string_spec. exact Ht.
    + apply strict_eq_optional_spec. exact He.
Qed.

Lemma matchesSecurity_compares_ticker_and_exchange_witness :
  Js.nullish AAPL_NASDAQ = false /\
  exists b : bool,
    matchesSecurity AAPL_NASDAQ [equity "AAPL" (Some "NASDAQ")] = Js.Normal b /\
    (b = true <->
     exists sub, In sub [equity "AAPL" (Some "NASDAQ")] /\
       Js.field AAPL_NASDAQ "ticker" = Js.JStr (ticker sub) /\
       Js.field AAPL_NASDAQ "exchange" = Js.of_optional (exchange sub)).
Proof.
  split; [reflexivity|].
  apply (matchesSecurity_compares_ticker_and_exchange AAPL_NASDAQ
           [equity "AAPL" (Some "NASDAQ")]).
  reflexivity.
Defined.

(** C2 fails as stated: with equal tickers, a subscription that omits the
    exchange does not match a tick that carries one, and a subscription
    that names an exchange does not match a tick that omits it. *)
Lemma ticker_only_match_counterexample :
  Js.field AAPL_NASDAQ "ticker" = Js.JStr (ticker (equity "AAPL" None)) /\
  matchesSecurity AAPL_NASDAQ [equity "AAPL" None] = Js.Normal false /\
  Js.field AAPL_only "ticker" = Js.JStr (ticker (equity "AAPL" (Some "NASDAQ"))) /\
  matchesSecurity AAPL_only [equity "AAPL" (Some "NASDAQ")] = Js.Normal false.
Proof. repeat split; reflexivity. Qed.

(** ** Removing a subscription *)

Lemma unsubscribe_absent (w : World) (subscriptionId : string) :
  JsMap.has subscriptionId (subscriptions (this w)) = false ->
  unsubscribe subscriptionId w = (w, []).
Proof. intros H. unfold unsubscribe. rewrite H. reflexivity. Qed.

Lemma absent_after_unsubscribe (w : World) (subscriptionId : string) :
  JsMap.has subscriptionId (subscriptions (this (fst (unsubscribe subscriptionId w)))) = false.
Proof.
  unfold unsubscribe.
  destruct (JsMap.has subscriptionId (subscriptions (this w))) eqn:H; simpl;
    [apply has_delete | exact H].
Qed.

(** C7: [unsubscribe] of an identifier that is not in the registry changes
    nothing and performs no effect (no message, no log line); a second
    [unsubscribe] of the same identifier is such a call. *)
Theorem unsubscribe_unknown_is_noop (w : World) (subscriptionId : string) :
  (JsMap.has subscriptionId (subscriptions (this w)) = false ->
   unsubscribe subscriptionId w = (w, [])) /\
  unsubscribe subscriptionId (fst (unsubscribe subscriptionId w))
    = (fst (unsubscribe subscriptionId w), []).
Proof.
  split; [apply unsubscribe_absent|].
  apply unsubscribe_absent, absent_after_unsubscribe.
Qed.

Lemma unsubscribe_unknown_is_noop_witness :
  JsMap.has "sub_1_a" (subscriptions (this fresh)) = false /\
  unsubscribe "sub_1_a" fresh = (fresh, []).
Proof.
  split; [reflexivity|].
  apply (proj1 (unsubscribe_unknown_is_noop fresh "sub_1_a")). reflexivity.
Defined.

(** ** Inbound messages *)

Section Inbound.
Variable JSON_parse : string -> option Js.value.

Lemma run_cons (w : World) (ev : Event) (rest : list Event) :
  run JSON_parse w (ev :: rest) =
    (fst (run JSON_parse (fst (step JSON_parse w ev)) rest),
     snd (step JSON_parse w ev) ++ snd (run JSON_parse (fst (step JSON_parse w ev)) rest)).
Proof.
  simpl. destruct (step JSON_parse w ev) as [w1 e1]; simpl.
  destruct (run JSON_parse w1 rest) as [w2 e2]; reflexivity.
Qed.

(** C10: a parsed message that is not [null] and whose [type] is not
    ["marketData"] is ignored: no effect at all (no callback, no event, no
    log line) and the client is unchanged. *)
Theorem other_message_types_are_ignored (w : World) (data : string) (message : Js.value) :
  JSON_parse data = Some message ->
  Js.nullish message = false ->
  Js.field message "type" <> Js.JStr "marketData" ->
  step JSON_parse w (WsMessage data) = (w, []).
Proof.
  intros Hp Hn Ht. simpl. unfold on_message. rewrite Hp.
  unfold handleWebSocketMessage. rewrite (get_not_nullish _ _ Hn).
  destruct (Js.strict_eq_string "marketData" (Js.field message "type")) eqn:E.
  - apply strict_eq_string_spec in E. contradiction.
  - cbn. rewrite E. reflexivity.
Qed.

(** ** Reconnection *)

Lemma reconnect_cycle (w : World) :
  run JSON_parse w [WsClosed; TimeoutFired; WsOpen] =
    ({| this := {| wsClient := Some (sockets w);
                   subscriptions := subscriptions (this w);
                   connected := true |};
        sockets := S (sockets w);
        timers := timers w |},
     [Log Warn "WebSocket connection closed"; Emit Disconnected; SetTimeout 5000;
      WsNew (sockets w);
      Log Info "WebSocket connection established"; Emit Connected]).
Proof. reflexivity. Qed.

(** What the message handler does is decided by the registry alone. *)
Lemma on_message_registry (w w' : World) (data : string) :
  subscriptions (this w') = subscriptions (this w) ->
  snd (on_message JSON_parse data w') = snd (on_message JSON_parse data w).
Proof.
  intros H. unfold on_message, handleWebSocketMessage. rewrite H.
  destruct (JSON_parse data) as [message|]; [|reflexivity].
  match goal with |- snd (match ?x with _ => _ end) = _ => destruct x as [effects [u|e]] end;
    reflexivity.
Qed.

(** C1, as the code has it: over a close of the transport, the firing of
    the reconnect timeout and the opening of the new socket, the client
    ends connected with every subscription still in its registry, so a
    message that arrives afterwards is dispatched as it would have been
    before; but the client sends nothing: no registration message goes out
    on the new socket. *)
Theorem reconnect_keeps_registry_and_sends_nothing (w : World) (data : string) :
  let after := run JSON_parse w [WsClosed; TimeoutFired; WsOpen] in
  isConnected (fst after) = true /\
  wsClient (this (fst after)) = Some (sockets w) /\
  subscriptions (this (fst after)) = subscriptions (this w) /\
  snd (step JSON_parse (fst after) (WsMessage data)) = snd (step JSON_parse w (WsMessage data)) /\
  sent (snd after) = [].
Proof.
  intros after. subst after. rewrite reconnect_cycle.
  split; [reflexivity|]. split; [reflexivity|]. split; [reflexivity|].
  split; [|reflexivity]. apply on_message_registry. reflexivity.
Qed.

End Inbound.

Lemma other_message_types_are_ignored_witness :
  sample_parse "heartbeat" = Some heartbeat /\
  Js.nullish heartbeat = false /\
  Js.field heartbeat "type" <> Js.JStr "marketData" /\
  step sample_parse fresh (WsMessage "heartbeat") = (fresh, []).
Proof.
  assert (Ht : Js.field heartbeat "type" <> Js.JStr "marketData") by discriminate.
  split; [reflexivity|]. split; [reflexivity|]. split; [exact Ht|].
  apply (other_message_types_are_ignored sample_parse fresh "heartbeat" heartbeat);
    [reflexivity | reflexivity | exact Ht].
Defined.

(** C1 fails as stated: a subscription registered while connected gets its
    registration message on socket 0; after close, timeout and the opening
    of socket 1 the subscription is still registered, yet nothing was sent
    on socket 1. *)
Lemma resubscribe_on_reconnect_counterexample :
  let before := run sample_parse fresh
                  [WsOpen; CallSubscribe 1700000000000 "4fzzzxjyl"
                             [equity "AAPL" (Some "NASDAQ")] ["last"] returns] in
  let after := run sample_parse (fst before) [WsClosed; TimeoutFired; WsOpen] in
  sent (snd before) = [(0, SubscribeMsg "sub_1700000000000_4fzzzxjyl"
                             [equity "AAPL" (Some "NASDAQ")] ["last"])] /\
  JsMap.has "sub_1700000000000_4fzzzxjyl" (subscriptions (this (fst after))) = true /\
  wsClient (this (fst after)) = Some 1 /\
  isConnected (fst after) = true /\
  sent (snd after) = [].
Proof. vm_compute. repeat split. Qed.

(** ** Closing the client *)

Lemma unsubscribe_host (w : World) (subscriptionId : string) :
  sockets (fst (unsubscribe subscriptionId w)) = sockets w /\
  timers (fst (unsubscribe subscriptionId w)) = timers w.
Proof.
  unfold unsubscribe.
  destruct (JsMap.has subscriptionId (subscriptions (this w))); split; reflexivity.
Qed.

Lemma unsubscribe_each_host (ids : list string) (w : World) :
  sockets (fst (unsubscribe_each ids w)) = sockets w /\
  timers (fst (unsubscribe_each ids w)) = timers w.
Proof.
  revert w. induction ids as [|i ids IH]; intros w; simpl; [split; reflexivity|].
  destruct (unsubscribe i w) as [w1 e1] eqn:E1.
  destruct (unsubscribe_each ids w1) as [w2 e2] eqn:E2. simpl.
  destruct (IH w1) as [Hs Ht]. rewrite E2 in Hs, Ht. simpl in Hs, Ht.
  destruct (unsubscribe_host w i) as [Hs' Ht']. rewrite E1 in Hs', Ht'. simpl in Hs', Ht'.
  split; congruence.
Qed.

Lemma disconnect_state (w : World) :
  connected (this (fst (disconnect w))) = false /\
  wsClient (this (fst (disconnect w))) = None /\
  sockets (fst (disconnect w)) = sockets w /\
  timers (fst (disconnect w)) = timers w.
Proof.
  unfold disconnect. destruct (wsClient (this w)) as [s|] eqn:Hws.
  - destruct (unsubscribe_each (JsMap.keys (subscriptions (this w))) w) as [w' e] eqn:E.
    simpl. destruct (unsubscribe_each_host (JsMap.keys (subscriptions (this w))) w) as [Hs Ht].
    rewrite E in Hs, Ht. simpl in Hs, Ht. repeat split; assumption.
  - simpl. repeat split. exact Hws.
Qed.

(** What the code does after [disconnect], in any state: the client is
    left not connected and without a socket, and no timeout is cancelled;
    the close event of the socket then arms a timeout of 5000 ms, its
    firing creates a new socket, and the opening of that socket makes the
    client connected again. *)
Lemma reconnect_follows_disconnect
    (JSON_parse : string -> option Js.value) (w : World) :
  let closed := fst (disconnect w) in
  isConnected closed = false /\
  wsClient (this closed) = None /\
  timers closed = timers w /\
  run JSON_parse closed [WsClosed; TimeoutFired; WsOpen] =
    ({| this := {| wsClient := Some (sockets w);
                   subscriptions := subscriptions (this closed);
                   connected := true |};
        sockets := S (sockets w);
        timers := timers w |},
     [Log Warn "WebSocket connection closed"; Emit Disconnected; SetTimeout 5000;
      WsNew (sockets w);
      Log Info "WebSocket connection established"; Emit Connected]).
Proof.
  intros closed. rewrite reconnect_cycle.
  destruct (disconnect_state w) as (Hc & Hw & Hs & Ht). fold closed in Hc, Hw, Hs, Ht.
  unfold isConnected. rewrite Hc, Hw, Hs, Ht. repeat split.
Qed.

(** C4: the code at the failing input. A client built with
    [enableWebSocket] whose socket 0 has opened is disconnected; the close
    event of socket 0 arms the reconnect timeout of 5000 ms, the timeout
    fires and creates socket 1, and when socket 1 opens the client is
    connected again. The claim says that no reconnect attempt is made after
    [disconnect]. *)
Theorem disconnect_then_close_reconnects :
  let opened := fst (run sample_parse fresh [WsOpen]) in
  let after := run sample_parse opened [CallDisconnect; WsClosed; TimeoutFired; WsOpen] in
  isConnected (fst (run sample_parse opened [CallDisconnect])) = false /\
  snd after =
    [WsClose 0; Log Info "Disconnected from Bloomberg Terminal";
     Log Warn "WebSocket connection closed"; Emit Disconnected; SetTimeout 5000;
     WsNew 1;
     Log Info "WebSocket connection established"; Emit Connected] /\
  wsClient (this (fst after)) = Some 1%nat /\
  isConnected (fst after) = true.
Proof. repeat split. Qed.

(** ** Subscription identifiers *)

Lemma string_of_uint_free (d : Decimal.uint) :
  free_of "_" (NilEmpty.string_of_uint d).
Proof. induction d; simpl; try exact I; (split; [discriminate | assumption]). Qed.

Lemma decimal_free (z : Z) : free_of "_" (decimal z).
Proof.
  unfold decimal. destruct (Z.to_int z) as [d|d]; simpl.
  - apply string_of_uint_free.
  - split; [discriminate | apply string_of_uint_free].
Qed.

Lemma decimal_inj (x y : Z) : decimal x = decimal y -> x = y.
Proof.
  unfold decimal. intros H.
  assert (Hi : Some (Z.to_int x) = Some (Z.to_int y)).
  { rewrite <- !NilEmpty.isi. rewrite H. reflexivity. }
  injection Hi as Hi. rewrite <- (DecimalZ.of_to x), <- (DecimalZ.of_to y), Hi.
  reflexivity.
Qed.

Lemma split_at_separator (c : ascii) (a1 a2 b1 b2 : string) :
  free_of c a1 -> free_of c a2 ->
  (a1 ++ String c b1)%string = (a2 ++ String c b2)%string ->
  a1 = a2 /\ b1 = b2.
Proof.
  revert a2. induction a1 as [|x a1 IH]; intros [|y a2]; simpl; intros H1 H2 E.
  - injection E as ->. split; reflexivity.
  - injection E as E _. destruct H2 as [H2 _]. congruence.
  - injection E as E _. destruct H1 as [H1 _]. congruence.
  - injection E as -> E. destruct H1 as [_ H1], H2 as [_ H2].
    destruct (IH a2 H1 H2 E) as [-> ->]. split; reflexivity.
Qed.

Lemma subscriptionId_inj (now1 now2 : Z) (random1 random2 : string) :
  subscriptionId now1 random1 = subscriptionId now2 random2 ->
  now1 = now2 /\ random1 = random2.
Proof.
  unfold subscriptionId. intros E. simpl in E. injection E as E.
  apply split_at_separator in E; try apply decimal_free.
  destruct E as [E ->]. split; [apply decimal_inj; exact E | reflexivity].
Qed.

(** C9, as the code has it: the identifier returned by [subscribe] is
    built from the clock reading and the random suffix of the call alone,
    so two calls return distinct identifiers whenever their clock readings
    differ or their random suffixes differ. *)
Theorem subscribe_ids_differ_with_clock_or_suffix
    (now1 now2 : Z) (random1 random2 : string)
    (securities1 securities2 : list SecurityIdentifier) (fields1 fields2 : list string)
    (callback1 callback2 : MarketDataPoint -> Js.completion unit) (w1 w2 : World) :
  now1 <> now2 \/ random1 <> random2 ->
  snd (subscribe now1 random1 securities1 fields1 callback1 w1)
    <> snd (subscribe now2 random2 securities2 fields2 callback2 w2).
Proof.
  intros H E. simpl in E. apply subscriptionId_inj in E as [E1 E2].
  destruct H as [H|H]; contradiction.
Qed.

Lemma subscribe_ids_differ_with_clock_or_suffix_witness :
  (1700000000000 <> 1700000000000 \/ "4fzzzxjyl" <> "k2j9x0q1a")%Z /\
  snd (subscribe 1700000000000 "4fzzzxjyl" [equity "AAPL" None] ["last"] returns fresh)
    <> snd (subscribe 1700000000000 "k2j9x0q1a" [equity "MSFT" None] ["bid"] returns
              (fst (fst (subscribe 1700000000000 "4fzzzxjyl" [equity "AAPL" None]
                          ["last"] returns fresh)))).
Proof.
  assert (H : (1700000000000 <> 1700000000000 \/ "4fzzzxjyl" <> "k2j9x0q1a")%Z)
    by (right; discriminate).
  split; [exact H|].
  apply (subscribe_ids_differ_with_clock_or_suffix
           1700000000000 1700000000000 "4fzzzxjyl" "k2j9x0q1a"
           [equity "AAPL" None] [equity "MSFT" None] ["last"] ["bid"] returns returns).
  exact H.
Defined.

(** C9 fails as stated: two [subscribe] calls in the same millisecond that
    draw the same random suffix return the same identifier, and the second
    subscription replaces the first in the registry. *)
Lemma subscription_id_reused_counterexample :
  let first := subscribe 1700000000000 "4fzzzxjyl" [equity "AAPL" None] ["last"] returns fresh in
  let second := subscribe 1700000000000 "4fzzzxjyl" [equity "MSFT" None] ["bid"] returns
                  (fst (fst first)) in
  snd first = snd second /\
  JsMap.size (subscriptions (this (fst (fst second)))) = 1 /\
  (securities <$> JsMap.get (snd first) (subscriptions (this (fst (fst second)))))
    = Some [equity "MSFT" None].
Proof. vm_compute. repeat split. Qed.

(** ** Dispatch of a tick *)

Lemma forEach_subscription_cons (dataPoint : MarketDataPoint) (k : string)
    (subscription : BloombergSubscription) (rest : list (string * BloombergSubscription)) :
  forEach_subscription dataPoint ((k, subscription) :: rest) =
    match matchesSecurity (security dataPoint) (securities subscription) with
    | Js.Thrown e => ([], Js.Thrown e)
    | Js.Normal false => forEach_subscription dataPoint rest
    | Js.Normal true =>
        match callback subscription dataPoint with
        | Js.Thrown e => ([Invoked (id subscription) dataPoint], Js.Thrown e)
        | Js.Normal _ =>
            (Invoked (id subscription) dataPoint :: fst (forEach_subscription dataPoint rest),
             snd (forEach_subscription dataPoint rest))
        end
    end.
Proof.
  cbn [forEach_subscription]. unfold mbind, action_bind, lift, invoke, mret, action_ret.
  destruct (matchesSecurity _ _) as [[|]|e]; [ | | reflexivity].
  - destruct (callback subscription dataPoint) as [u|e]; [|reflexivity].
    destruct (forEach_subscription dataPoint rest) as [e2 r]; reflexivity.
  - destruct (forEach_subscription dataPoint rest) as [e2 r]; reflexivity.
Qed.






Lemma field_string_not_nullish (v : Js.value) (p s : string) :
  Js.field v p = Js.JStr s -> Js.nullish v = false.
Proof. destruct v; simpl; try discriminate; reflexivity. Qed.

(** *** The registry stays well formed *)

Lemma registry_wf_set (k : string) (subscription : BloombergSubscription)
    (subs : list (string * BloombergSubscription)) :
  id subscription = k -> registry_wf subs ->
  registry_wf (JsMap.set k subscription subs).
Proof.
  intros Hid [Hnd Hall]. split.
  - destruct (JsMap.has k subs) eqn:Hk.
    + rewrite (keys_set_present _ _ _ Hk). exact Hnd.
    + rewrite (keys_set_absent _ _ _ Hk). apply NoDup_app. split; [exact Hnd|]. split.
      * intros x Hx Hx'. apply list_elem_of_singleton in Hx'. subst x.
        apply list_elem_of_In, has_keys in Hx. congruence.
      * apply NoDup_singleton.
  - clear Hnd. induction Hall as [|[k' s'] l He Hl IH]; simpl.
    + constructor; [exact Hid | constructor].
    + destruct (String.eqb k' k) eqn:E.
      * apply String.eqb_eq in E. subst k'. constructor; [exact Hid | assumption].
      * constructor; assumption.
Qed.

Lemma NoDup_List_filter {A : Type} (f : A -> bool) (l : list A) :
  NoDup l -> NoDup (List.filter f l).
Proof.
  induction l as [|a l IH]; simpl; intros H; [constructor|].
  apply NoDup_cons in H as [Ha Hl]. destruct (f a); [|exact (IH Hl)].
  apply NoDup_cons. split; [|exact (IH Hl)].
  intros Hin. apply Ha. apply list_elem_of_In in Hin. apply filter_In in Hin as [Hin _].
  apply list_elem_of_In. exact Hin.
Qed.

Lemma registry_wf_delete (k : string) (subs : list (string * BloombergSubscription)) :
  registry_wf subs -> registry_wf (JsMap.delete k subs).
Proof.
  intros [Hnd Hall]. split.
  - rewrite keys_delete. apply NoDup_List_filter. exact Hnd.
  - clear Hnd. induction Hall as [|e l He _ IH]; simpl; [constructor|].
    destruct (negb (String.eqb (fst e) k)); [constructor|]; assumption.
Qed.

Lemma registry_wf_unsubscribe (subscriptionId : string) (w : World) :
  registry_wf (subscriptions (this w)) ->
  registry_wf (subscriptions (this (fst (unsubscribe subscriptionId w)))).
Proof.
  intros H. unfold unsubscribe.
  destruct (JsMap.has subscriptionId (subscriptions (this w))); simpl;
    [apply registry_wf_delete|]; exact H.
Qed.

Lemma registry_wf_unsubscribe_each (ids : list string) (w : World) :
  registry_wf (subscriptions (this w)) ->
  registry_wf (subscriptions (this (fst (unsubscribe_each ids w)))).
Proof.
  revert w. induction ids as [|i ids IH]; intros w H; simpl; [exact H|].
  pose proof (registry_wf_unsubscribe i w H) as H1.
  destruct (unsubscribe i w) as [w1 e1]. simpl in H1.
  specialize (IH w1 H1). destruct (unsubscribe_each ids w1) as [w2 e2]. exact IH.
Qed.

Lemma registry_wf_step (JSON_parse : string -> option Js.value) (w : World) (ev : Event) :
  registry_wf (subscriptions (this w)) ->
  registry_wf (subscriptions (this (fst (step JSON_parse w ev)))).
Proof.
  intros H. destruct ev; simpl; try exact H.
  - unfold on_message. destruct (JSON_parse data); [|exact H].
    destruct (handleWebSocketMessage (this w) v) as [effects [u|e]]; exact H.
  - unfold on_timeout. destruct (timers w); exact H.
  - apply registry_wf_set; [reflexivity | exact H].
  - apply registry_wf_unsubscribe. exact H.
  - unfold disconnect. destruct (wsClient (this w)); simpl; [|exact H].
    pose proof (registry_wf_unsubscribe_each (JsMap.keys (subscriptions (this w))) w H) as H1.
    destruct (unsubscribe_each _ w) as [w' e]. exact H1.
Qed.

(** Every state the client reaches from its construction has a
    well-formed registry. *)
Lemma registry_wf_run (JSON_parse : string -> option Js.value) (evs : list Event) (w : World) :
  registry_wf (subscriptions (this w)) ->
  registry_wf (subscriptions (this (fst (run JSON_parse w evs)))).
Proof.
  revert w. induction evs as [|ev evs IH]; intros w H; [exact H|].
  rewrite run_cons. simpl. apply IH, registry_wf_step, H.
Qed.

Lemma registry_wf_new (enableWebSocket : bool) :
  registry_wf (subscriptions (this (fst (new_client enableWebSocket)))).
Proof. destruct enableWebSocket; split; constructor. Qed.

End ClientProperties.

(** ** Live workbooks *)

Section ExcelProperties.
Import Excel Sample.

Lemma task_of_clear_same (handle : nat) (armed : list (nat * Task)) :
  task_of handle (clear handle armed) = None.
Proof.
  induction armed as [|[h t] armed IH]; simpl; [reflexivity|].
  destruct (Nat.eqb h handle) eqn:E; simpl; [exact IH|]. rewrite E. exact IH.
Qed.

Lemma task_of_clear_none (handle other : nat) (armed : list (nat * Task)) :
  task_of handle armed = None -> task_of handle (clear other armed) = None.
Proof.
  induction armed as [|[h t] armed IH]; simpl; [reflexivity|].
  destruct (Nat.eqb h handle) eqn:E; [discriminate|]. intros H.
  destruct (Nat.eqb h other); simpl; [|rewrite E]; exact (IH H).
Qed.

Lemma clear_matching_kept (workbookId : string) (entries : list (string * nat))
    (armed : list (nat * Task)) :
  fst (fst (clear_matching workbookId entries armed))
    = List.filter (fun e => negb (String.prefix workbookId (fst e))) entries.
Proof.
  revert armed. induction entries as [|[rangeId h] rest IH]; intros armed; simpl;
    [reflexivity|].
  destruct (String.prefix workbookId rangeId); simpl.
  - specialize (IH (clear h armed)).
    destruct (clear_matching workbookId rest (clear h armed)) as [[kept armed'] e]. exact IH.
  - specialize (IH armed).
    destruct (clear_matching workbookId rest armed) as [[kept armed'] e]. simpl in *.
    f_equal. exact IH.
Qed.

Lemma clear_matching_armed (workbookId : string) (entries : list (string * nat)) :
  forall armed : list (nat * Task),
  let armed' := snd (fst (clear_matching workbookId entries armed)) in
  (forall h, task_of h armed = None -> task_of h armed' = None) /\
  (forall rangeId h, In (rangeId, h) entries ->
     String.prefix workbookId rangeId = true -> task_of h armed' = None).
Proof.
  induction entries as [|[rangeId0 h0] rest IH]; intros armed; simpl.
  - split; [auto | intros ? ? []].
  - destruct (String.prefix workbookId rangeId0) eqn:E.
    + destruct (IH (clear h0 armed)) as [Hnone Hin].
      destruct (clear_matching workbookId rest (clear h0 armed)) as [[kept armed'] e].
      simpl in *. split.
      * intros h H. apply Hnone, task_of_clear_none, H.
      * intros rangeId h [[= -> ->]|H] Hp; [apply Hnone, task_of_clear_same|].
        exact (Hin rangeId h H Hp).
    + destruct (IH armed) as [Hnone Hin].
      destruct (clear_matching workbookId rest armed) as [[kept armed'] e].
      simpl in *. split; [exact Hnone|].
      intros rangeId h [[= -> ->]|H] Hp; [congruence|]. exact (Hin rangeId h H Hp).
Qed.

Lemma clear_matching_sent (workbookId : string) (entries : list (string * nat))
    (armed : list (nat * Task)) (tail : list Effect) :
  sent (snd (clear_matching workbookId entries armed) ++ tail) = sent tail.
Proof.
  revert armed. induction entries as [|[rangeId h] rest IH]; intros armed; simpl;
    [reflexivity|].
  destruct (String.prefix workbookId rangeId).
  - specialize (IH (clear h armed)).
    destruct (clear_matching workbookId rest (clear h armed)) as [[kept armed'] e]. exact IH.
  - specialize (IH armed).
    destruct (clear_matching workbookId rest armed) as [[kept armed'] e]. exact IH.
Qed.

(** C5, as the code has it: closing a live workbook clears the refresh
    interval of every range whose identifier starts with the workbook's
    identifier and forgets its handle, and removes the workbook from the
    active workbooks; the shared client is left as it was and no message is
    sent to the feed, so the subscriptions made for the ranges stay
    registered. *)
Theorem closeLiveWorkbook_stops_refresh_only (workbookId : string) (w : World) :
  let closed := fst (closeLiveWorkbook workbookId w) in
  let effects := snd (closeLiveWorkbook workbookId w) in
  updateIntervals (this closed)
    = List.filter (fun e => negb (String.prefix workbookId (fst e))) (updateIntervals (this w)) /\
  (forall rangeId handle, In (rangeId, handle) (updateIntervals (this w)) ->
     String.prefix workbookId rangeId = true -> task_of handle (intervals closed) = None) /\
  activeWorkbooks (this closed) = JsMap.delete workbookId (activeWorkbooks (this w)) /\
  bloombergClient closed = bloombergClient w /\
  sent effects = [].
Proof.
  intros closed effects. subst closed effects. unfold closeLiveWorkbook.
  pose proof (clear_matching_kept workbookId (updateIntervals (this w)) (intervals w)) as Hk.
  pose proof (clear_matching_armed workbookId (updateIntervals (this w)) (intervals w)) as [_ Ha].
  pose proof (clear_matching_sent workbookId (updateIntervals (this w)) (intervals w)
                [Log Client.Info ("Closed live workbook: " ++ workbookId)]) as Hs.
  destruct (clear_matching workbookId (updateIntervals (this w)) (intervals w))
    as [[kept armed'] e].
  simpl in *. repeat split; assumption.
Qed.

(** C5 fails as stated: after the live workbook is closed, the count of
    active ranges is still 1, the subscription made for the range is still
    in the client's registry, and no unsubscribe message was sent. *)
Lemma closed_range_stays_subscribed_counterexample :
  let closed := closeLiveWorkbook "live-market-data" (fst live) in
  sent (snd live)
    = [(0%nat, Client.SubscribeMsg "sub_1700000000000_4fzzzxjyl"
                 [equity "AAPL" None] ["PX_LAST"])] /\
  activeRanges (getStatus 1700000005000 (fst live)) = 1%nat /\
  activeRanges (getStatus 1700000005000 (fst closed)) = 1%nat /\
  JsMap.has "sub_1700000000000_4fzzzxjyl"
    (Client.subscriptions (Client.this (bloombergClient (fst closed)))) = true /\
  sent (snd closed) = [].
Proof. vm_compute. repeat split. Qed.

(** In the sample, the interval of the range is armed before the close
    and cleared by it. *)
Example closed_workbook_interval_cleared :
  task_of 0 (intervals (fst live))
    = Some {| task_workbook := "live-market-data";
              task_file := "output/live-market-data.xlsx" |} /\
  task_of 0 (intervals (fst (closeLiveWorkbook "live-market-data" (fst live)))) = None.
Proof. split; reflexivity. Qed.

(** C8: when an armed interval fires and the write of the workbook fails,
    the error is caught and logged, the call completes without throwing,
    and nothing is changed, so the interval stays armed; when it fires
    again, the write is attempted again. *)
Theorem failed_flush_is_caught_and_retried
    (w : World) (handle : nat) (t : Task) (wb : Workbook) (msg : string) :
  task_of handle (intervals w) = Some t ->
  JsMap.get (task_workbook t) (activeWorkbooks (this w)) = Some wb ->
  on_interval handle (WriteError msg) w
    = (w,
       [WriteFile (task_workbook t) (task_file t);
        Log Client.Error "Failed to refresh live workbook"],
       Js.Normal tt) /\
  forall write : WriteResult,
    exists rest,
      snd (fst (on_interval handle write (fst (fst (on_interval handle (WriteError msg) w)))))
        = WriteFile (task_workbook t) (task_file t) :: rest.
Proof.
  intros Ht Hwb.
  assert (H1 : on_interval handle (WriteError msg) w
               = (w, [WriteFile (task_workbook t) (task_file t);
                      Log Client.Error "Failed to refresh live workbook"], Js.Normal tt)).
  { unfold on_interval, refreshLiveWorkbook, refresh_body. rewrite Ht, Hwb. reflexivity. }
  split; [exact H1|]. intros write. rewrite H1. simpl.
  unfold on_interval, refreshLiveWorkbook, refresh_body. rewrite Ht, Hwb.
  destruct write; eexists; reflexivity.
Qed.

(** The connector's own [disconnect] does empty the registry of live
    ranges. *)
Lemma disconnect_clears_ranges (now : Z) (w : World) :
  activeRanges (getStatus now (fst (disconnect w))) = 0%nat.
Proof. reflexivity. Qed.

Lemma failed_flush_is_caught_and_retried_witness :
  let t := {| task_workbook := "live-market-data";
              task_file := "output/live-market-data.xlsx" |} in
  task_of 0 (intervals (fst live)) = Some t /\
  JsMap.get (task_workbook t) (activeWorkbooks (this (fst live))) = Some NewWorkbook /\
  on_interval 0 (WriteError "EBUSY") (fst live)
    = (fst live,
       [WriteFile (task_workbook t) (task_file t);
        Log Client.Error "Failed to refresh live workbook"],
       Js.Normal tt).
Proof.
  intros t. split; [reflexivity|]. split; [reflexivity|].
  apply (proj1 (failed_flush_is_caught_and_retried (fst live) 0 t NewWorkbook "EBUSY"
                  eq_refl eq_refl)).
Defined.

End ExcelProperties.

(** * Further properties of the client *)

Section RegistryProperties.
Import Client Sample Trace.

Lemma get_set_same {V : Type} (k : string) (v : V) (m : list (string * V)) :
  JsMap.get k (JsMap.set k v m) = Some v.
Proof.
  induction m as [|[k' v'] m IH]; simpl; [rewrite String.eqb_refl; reflexivity|].
  destruct (String.eqb k' k) eqn:E; simpl; rewrite E; [reflexivity | exact IH].
Qed.

Lemma get_set_other {V : Type} (k k' : string) (v : V) (m : list (string * V)) :
  k <> k' -> JsMap.get k' (JsMap.set k v m) = JsMap.get k' m.
Proof.
  intros Hne. induction m as [|[k0 v0] m IH]; simpl.
  - apply String.eqb_neq in Hne. rewrite Hne. reflexivity.
  - destruct (String.eqb k0 k) eqn:E; simpl.
    + apply String.eqb_eq in E. subst k0. apply String.eqb_neq in Hne. rewrite Hne.
      reflexivity.
    + destruct (String.eqb k0 k'); [reflexivity | exact IH].
Qed.

Lemma get_delete_other {V : Type} (k k' : string) (m : list (string * V)) :
  k <> k' -> JsMap.get k' (JsMap.delete k m) = JsMap.get k' m.
Proof.
  intros Hne. induction m as [|[k0 v0] m IH]; simpl; [reflexivity|].
  destruct (String.eqb k0 k) eqn:E; simpl.
  - apply String.eqb_eq in E. subst k0. apply String.eqb_neq in Hne. rewrite Hne.
    exact IH.
  - destruct (String.eqb k0 k'); [reflexivity | exact IH].
Qed.

Lemma delete_set_fresh {V : Type} (k : string) (v : V) (m : list (string * V)) :
  JsMap.has k m = false -> JsMap.delete k (JsMap.set k v m) = m.
Proof.
  induction m as [|[k' v'] m IH]; simpl.
  - rewrite String.eqb_refl. reflexivity.
  - destruct (String.eqb k' k) eqn:E; [discriminate|]. intros H. simpl. rewrite E. simpl.
    f_equal. exact (IH H).
Qed.

Lemma has_set {V : Type} (k : string) (v : V) (m : list (string * V)) :
  JsMap.has k (JsMap.set k v m) = true.
Proof.
  induction m as [|[k' v'] m IH]; simpl; [rewrite String.eqb_refl; reflexivity|].
  destruct (String.eqb k' k) eqn:E; simpl; rewrite E; [reflexivity | exact IH].
Qed.

Lemma size_delete_present {V : Type} (k : string) (m : list (string * V)) :
  NoDup (JsMap.keys m) -> JsMap.has k m = true ->
  S (JsMap.size (JsMap.delete k m)) = JsMap.size m.
Proof.
  induction m as [|[k' v'] m IH]; simpl; [discriminate|].
  intros Hnd. apply NoDup_cons in Hnd as [Hnotin Hnd].
  destruct (String.eqb k' k) eqn:E; simpl.
  - intros _. apply String.eqb_eq in E. subst k'. f_equal.
    rewrite delete_absent; [reflexivity|].
    destruct (JsMap.has k m) eqn:Hh; [|reflexivity].
    exfalso. apply Hnotin, list_elem_of_In, has_keys. exact Hh.
  - intros H. f_equal. exact (IH Hnd H).
Qed.

(** X1: a subscription whose identifier is new to the registry and that
    is removed again leaves the client exactly as it was before the
    [subscribe]. *)
Theorem subscribe_then_unsubscribe_restores
    (now : Z) (random : string) (secs : list SecurityIdentifier) (flds : list string)
    (cb : MarketDataPoint -> Js.completion unit) (w : World) :
  JsMap.has (subscriptionId now random) (subscriptions (this w)) = false ->
  let '(w1, _, subscriptionId) := subscribe now random secs flds cb w in
  fst (unsubscribe subscriptionId w1) = w.
Proof.
  unfold subscribe. cbv zeta. generalize (subscriptionId now random) as i. intros i H.
  destruct w as [[ws subs conn] s t]. unfold unsubscribe, with_this.
  cbn [this subscriptions wsClient connected sockets timers fst snd] in *.
  rewrite has_set. cbn [this subscriptions wsClient connected sockets timers fst snd].
  rewrite (delete_set_fresh _ _ _ H). reflexivity.
Qed.

Lemma subscribe_then_unsubscribe_restores_witness :
  JsMap.has (subscriptionId 4 "d") (subscriptions (this three_subscribers)) = false /\
  let '(w1, _, subscriptionId) :=
    subscribe 4 "d" [equity "TSLA" None] ["last"] returns three_subscribers in
  fst (unsubscribe subscriptionId w1) = three_subscribers.
Proof.
  split; [reflexivity|].
  apply (subscribe_then_unsubscribe_restores 4 "d" [equity "TSLA" None] ["last"] returns
           three_subscribers).
  reflexivity.
Defined.

(** X2: after [subscribe], looking up the returned identifier gives the
    subscription just made, with the securities, fields and callback of the
    call, and every other identifier looks up as before; a subscription
    already stored under that identifier is replaced. *)
Theorem subscribe_lookup
    (now : Z) (random : string) (secs : list SecurityIdentifier) (flds : list string)
    (cb : MarketDataPoint -> Js.completion unit) (w : World) (k : string) :
  let '(w1, _, subscriptionId) := subscribe now random secs flds cb w in
  JsMap.get k (subscriptions (this w1)) =
    if String.eqb subscriptionId k
    then Some {| id := subscriptionId; securities := secs; fields := flds; callback := cb |}
    else JsMap.get k (subscriptions (this w)).
Proof.
  unfold subscribe. cbv zeta. generalize (subscriptionId now random) as i. intros i.
  unfold with_this. cbn [this subscriptions].
  destruct (String.eqb i k) eqn:E.
  - apply String.eqb_eq in E. subst k. apply get_set_same.
  - apply String.eqb_neq in E. apply get_set_other. exact E.
Qed.

(** X3: [unsubscribe] of an identifier that is registered removes that
    entry and no other: the identifier is gone, every other identifier
    looks up as before, the registry is one entry shorter, and the only
    message is one unsubscribe request, sent when the client holds a
    socket and is connected. *)
Theorem unsubscribe_removes_only_that
    (w : World) (subscriptionId : string) (k : string) :
  registry_wf (subscriptions (this w)) ->
  JsMap.has subscriptionId (subscriptions (this w)) = true ->
  let '(w1, effects) := unsubscribe subscriptionId w in
  JsMap.has subscriptionId (subscriptions (this w1)) = false /\
  (k <> subscriptionId ->
   JsMap.get k (subscriptions (this w1)) = JsMap.get k (subscriptions (this w))) /\
  S (JsMap.size (subscriptions (this w1))) = JsMap.size (subscriptions (this w)) /\
  sent effects =
    match wsClient (this w), connected (this w) with
    | Some s, true => [(s, UnsubscribeMsg subscriptionId)]
    | _, _ => []
    end.
Proof.
  intros [Hnd _] H. unfold unsubscribe. rewrite H. simpl.
  split; [apply has_delete|]. split.
  { intros Hne. apply get_delete_other. congruence. }
  split; [apply size_delete_present; assumption|].
  destruct (wsClient (this w)) as [s|]; [destruct (connected (this w))|]; reflexivity.
Qed.

Lemma unsubscribe_removes_only_that_witness :
  registry_wf (subscriptions (this three_subscribers)) /\
  JsMap.has "sub_2_b" (subscriptions (this three_subscribers)) = true /\
  let '(w1, effects) := unsubscribe "sub_2_b" three_subscribers in
  JsMap.has "sub_2_b" (subscriptions (this w1)) = false /\
  ("sub_1_a" <> "sub_2_b" ->
   JsMap.get "sub_1_a" (subscriptions (this w1))
     = JsMap.get "sub_1_a" (subscriptions (this three_subscribers))) /\
  S (JsMap.size (subscriptions (this w1))) = JsMap.size (subscriptions (this three_subscribers)) /\
  sent effects =
    match wsClient (this three_subscribers), connected (this three_subscribers) with
    | Some s, true => [(s, UnsubscribeMsg "sub_2_b")]
    | _, _ => []
    end.
Proof.
  assert (Hwf : registry_wf (subscriptions (this three_subscribers))).
  { apply registry_wf_run, registry_wf_new. }
  split; [exact Hwf|]. split; [reflexivity|].
  apply (unsubscribe_removes_only_that three_subscribers "sub_2_b" "sub_1_a" Hwf).
  reflexivity.
Defined.

(** X4: the registry of every state the client reaches from its
    construction, whatever events arrive, has pairwise distinct keys and
    holds each subscription under its own [id]. *)
Theorem registry_wf_reachable (JSON_parse : string -> option Js.value)
    (enableWebSocket : bool) (evs : list Event) :
  registry_wf
    (subscriptions (this (fst (run JSON_parse (fst (new_client enableWebSocket)) evs)))).
Proof. apply registry_wf_run, registry_wf_new. Qed.

End RegistryProperties.

Section SendingProperties.
Import Client Sample Trace.
Variable JSON_parse : string -> option Js.value.

Lemma sent_app (a b : list Effect) : sent (a ++ b) = sent a ++ sent b.
Proof. unfold sent. apply omap_app. Qed.

Lemma created_app (a b : list Effect) : created (a ++ b) = created a ++ created b.
Proof. unfold created. apply omap_app. Qed.

(** The loop over the registry performs callback invocations only. *)
Lemma forEach_subscription_effects (dataPoint : MarketDataPoint)
    (subs : list (string * BloombergSubscription)) :
  exists l, fst (forEach_subscription dataPoint subs) = invoked_all dataPoint l.
Proof.
  induction subs as [|[k s] rest [l IH]]; [exists []; reflexivity|].
  rewrite forEach_subscription_cons.
  destruct (matchesSecurity _ _) as [[|]|e]; [ | exists l; exact IH | exists []; reflexivity].
  destruct (callback s dataPoint).
  - exists ((k, s) :: l). simpl. rewrite IH. reflexivity.
  - exists [(k, s)]. reflexivity.
Qed.

Lemma invoked_all_quiet (dataPoint : MarketDataPoint)
    (l : list (string * BloombergSubscription)) :
  sent (invoked_all dataPoint l) = [] /\ created (invoked_all dataPoint l) = [].
Proof. induction l as [|e l [IH1 IH2]]; split; simpl; auto. Qed.

Lemma forEach_subscription_sends_nothing (dataPoint : MarketDataPoint)
    (subs : list (string * BloombergSubscription)) :
  sent (fst (forEach_subscription dataPoint subs)) = [].
Proof.
  destruct (forEach_subscription_effects dataPoint subs) as [l ->].
  apply invoked_all_quiet.
Qed.

Lemma on_message_sends_nothing (data : string) (w : World) :
  fst (on_message JSON_parse data w) = w /\
  sent (snd (on_message JSON_parse data w)) = [] /\
  created (snd (on_message JSON_parse data w)) = [].
Proof.
  unfold on_message. destruct (JSON_parse data) as [message|]; [|repeat split].
  unfold handleWebSocketMessage.
  destruct (Js.get message "type") as [ty|e]; [|repeat split].
  unfold mbind, action_bind, lift, perform.
  destruct (Js.strict_eq_string "marketData" ty); [|repeat split].
  destruct (dataPoint_of message) as [dataPoint|e]; [|repeat split].
  destruct (forEach_subscription_effects dataPoint (subscriptions (this w))) as [l Hl].
  destruct (invoked_all_quiet dataPoint l) as [Hs Hc].
  destruct (forEach_subscription _ _) as [effects [u|e]]; simpl in *; subst effects;
    rewrite ?sent_app, ?created_app, Hs, Hc; repeat split.
Qed.

Lemma unsubscribe_link (subscriptionId : string) (w : World) :
  wsClient (this (fst (unsubscribe subscriptionId w))) = wsClient (this w) /\
  connected (this (fst (unsubscribe subscriptionId w))) = connected (this w).
Proof.
  unfold unsubscribe.
  destruct (JsMap.has subscriptionId (subscriptions (this w))); split; reflexivity.
Qed.


Lemma unsubscribe_silent (subscriptionId : string) (w : World) :
  connected (this w) = false -> sent (snd (unsubscribe subscriptionId w)) = [].
Proof.
  intros H. unfold unsubscribe. rewrite H.
  destruct (JsMap.has subscriptionId (subscriptions (this w))); [|reflexivity].
  destruct (wsClient (this w)); reflexivity.
Qed.


Lemma unsubscribe_each_silent (ids : list string) (w : World) :
  connected (this w) = false -> sent (snd (unsubscribe_each ids w)) = [].
Proof.
  revert w. induction ids as [|i ids IH]; intros w H; simpl; [reflexivity|].
  pose proof (unsubscribe_silent i w H) as H1.
  pose proof (proj2 (unsubscribe_link i w)) as Hc. rewrite H in Hc.
  destruct (unsubscribe i w) as [w1 e1]. specialize (IH w1 Hc).
  destruct (unsubscribe_each ids w1) as [w2 e2]. simpl in *.
  rewrite sent_app, H1, IH. reflexivity.
Qed.

(** X5: while the client is not connected, no event makes it send
    anything: a [subscribe] only stores the subscription, an [unsubscribe]
    or [disconnect] only deletes. *)
Theorem nothing_sent_while_disconnected (w : World) (ev : Event) :
  connected (this w) = false ->
  sent (snd (step JSON_parse w ev)) = [].
Proof.
  intros H. destruct ev; simpl; try reflexivity.
  - apply (on_message_sends_nothing data w).
  - unfold on_timeout. destruct (timers w); reflexivity.
  - rewrite H. destruct (wsClient (this w)); reflexivity.
  - apply unsubscribe_silent, H.
  - unfold disconnect. destruct (wsClient (this w)) as [s|]; [|reflexivity].
    pose proof (unsubscribe_each_silent (JsMap.keys (subscriptions (this w))) w H) as Hs.
    destruct (unsubscribe_each _ w) as [w' e]. simpl in *.
    rewrite !sent_app, Hs. reflexivity.
Qed.


End SendingProperties.

Section SendingWitnesses.
Import Client Sample Trace.


Lemma nothing_sent_while_disconnected_witness :
  connected (this fresh) = false /\
  sent (snd (step sample_parse fresh
               (CallSubscribe 5 "e" [equity "AAPL" None] ["last"] returns))) = [].
Proof.
  split; [reflexivity|].
  apply (nothing_sent_while_disconnected sample_parse fresh
           (CallSubscribe 5 "e" [equity "AAPL" None] ["last"] returns)).
  reflexivity.
Defined.

End SendingWitnesses.

Section HostProperties.
Import Client Sample Trace.
Variable JSON_parse : string -> option Js.value.

Lemma unsubscribe_creates_nothing (subscriptionId : string) (w : World) :
  created (snd (unsubscribe subscriptionId w)) = [].
Proof.
  unfold unsubscribe.
  destruct (JsMap.has subscriptionId (subscriptions (this w))); [|reflexivity].
  destruct (wsClient (this w)); [destruct (connected (this w))|]; reflexivity.
Qed.

Lemma unsubscribe_each_creates_nothing (ids : list string) (w : World) :
  created (snd (unsubscribe_each ids w)) = [].
Proof.
  revert w. induction ids as [|i ids IH]; intros w; simpl; [reflexivity|].
  pose proof (unsubscribe_creates_nothing i w) as H1.
  destruct (unsubscribe i w) as [w1 e1]. specialize (IH w1).
  destruct (unsubscribe_each ids w1) as [w2 e2]. simpl in *.
  rewrite created_app, H1, IH. reflexivity.
Qed.

Lemma disconnect_creates_nothing (w : World) : created (snd (disconnect w)) = [].
Proof.
  unfold disconnect. destruct (wsClient (this w)) as [s|]; [|reflexivity].
  pose proof (unsubscribe_each_creates_nothing (JsMap.keys (subscriptions (this w))) w) as H.
  destruct (unsubscribe_each _ w) as [w' e]. simpl in *.
  rewrite !created_app, H. reflexivity.
Qed.

Lemma step_sockets (w : World) (ev : Event) :
  let w1 := fst (step JSON_parse w ev) in
  created (snd (step JSON_parse w ev)) = seq (sockets w) (sockets w1 - sockets w) /\
  (sockets w <= sockets w1)%nat /\
  (sockets w1 - sockets w + timers w1 = timers w + closes [ev])%nat.
Proof.
  assert (Hsame : forall (w1 : World) (e : list Effect) (n : nat),
            created e = [] -> sockets w1 = sockets w -> (timers w1 = timers w + n)%nat ->
            created e = seq (sockets w) (sockets w1 - sockets w) /\
            (sockets w <= sockets w1)%nat /\
            (sockets w1 - sockets w + timers w1 = timers w + n)%nat).
  { intros w1 e n He Hs Ht. rewrite He, Hs, Nat.sub_diag.
    split; [reflexivity|]. split; lia. }
  destruct ev as [ | data | | | | now random secs flds cb | sid | ]; cbn [step].
  - apply Hsame; simpl; try reflexivity; (unfold closes; simpl; lia).
  - destruct (on_message_sends_nothing JSON_parse data w) as (Hw & _ & Hc).
    apply Hsame; rewrite ?Hw; simpl; auto; (unfold closes; simpl; lia).
  - apply Hsame; simpl; try reflexivity; (unfold closes; simpl; lia).
  - apply Hsame; simpl; try reflexivity; (unfold closes; simpl; lia).
  - unfold on_timeout. destruct (timers w) as [|n] eqn:Ht.
    + apply Hsame; simpl; try reflexivity; (unfold closes; simpl; lia).
    + simpl. replace (S (sockets w) - sockets w)%nat with 1%nat by (unfold closes; simpl; lia).
      split; [reflexivity|]. split; simpl; (unfold closes; simpl; lia).
  - apply Hsame; simpl; try (unfold closes; simpl; lia); try reflexivity.
    destruct (wsClient (this w)); [destruct (connected (this w))|]; reflexivity.
  - destruct (unsubscribe_host w sid) as [Hs Ht].
    apply Hsame; [apply unsubscribe_creates_nothing | exact Hs | simpl; (unfold closes; simpl; lia)].
  - destruct (disconnect_state w) as (_ & _ & Hs & Ht).
    apply Hsame; [apply disconnect_creates_nothing | exact Hs | simpl; (unfold closes; simpl; lia)].
Qed.

(** X9: sockets are created only when a reconnect timeout fires, and each
    one uses up one armed timeout: over any sequence of events, the sockets
    created are numbered consecutively from the count before, and the
    sockets created plus the timeouts still armed equal the timeouts armed
    before plus the close events delivered. *)
Theorem sockets_are_paid_by_closes (w : World) (evs : list Event) :
  let w' := fst (run JSON_parse w evs) in
  created (snd (run JSON_parse w evs)) = seq (sockets w) (sockets w' - sockets w) /\
  (sockets w <= sockets w')%nat /\
  (sockets w' - sockets w + timers w' = timers w + closes evs)%nat.
Proof.
  revert w. induction evs as [|ev evs IH]; intros w.
  - simpl. rewrite Nat.sub_diag. split; [reflexivity|].
    split; [lia | unfold closes; simpl; lia].
  - rewrite run_cons. cbn [fst snd].
    destruct (IH (fst (step JSON_parse w ev))) as (Hc & Hle & Hsum).
    destruct (step_sockets w ev) as (Hc1 & Hle1 & Hsum1).
    set (w1 := fst (step JSON_parse w ev)) in *.
    set (w2 := fst (run JSON_parse w1 evs)) in *.
    assert (Hcl : closes (ev :: evs) = (closes [ev] + closes evs)%nat).
    { unfold closes. simpl. destruct ev; reflexivity. }
    split; [|split; [lia | rewrite Hcl; lia]].
    rewrite created_app, Hc, Hc1.
    replace (sockets w2 - sockets w)%nat
      with ((sockets w1 - sockets w) + (sockets w2 - sockets w1))%nat by lia.
    rewrite seq_app. do 2 f_equal. lia.
Qed.


End HostProperties.

Section DisconnectProperties.
Import Client Sample Trace.

Lemma unsubscribe_subscriptions (subscriptionId : string) (w : World) :
  subscriptions (this (fst (unsubscribe subscriptionId w)))
    = JsMap.delete subscriptionId (subscriptions (this w)).
Proof.
  unfold unsubscribe.
  destruct (JsMap.has subscriptionId (subscriptions (this w))) eqn:H; simpl;
    [reflexivity | symmetry; apply delete_absent; exact H].
Qed.

Lemma unsubscribe_each_subscriptions (ids : list string) (w : World) :
  subscriptions (this (fst (unsubscribe_each ids w)))
    = fold_left (fun m k => JsMap.delete k m) ids (subscriptions (this w)).
Proof.
  revert w. induction ids as [|i ids IH]; intros w; simpl; [reflexivity|].
  pose proof (unsubscribe_subscriptions i w) as H1.
  destruct (unsubscribe i w) as [w1 e1]. specialize (IH w1).
  destruct (unsubscribe_each ids w1) as [w2 e2]. simpl in *. rewrite IH, H1. reflexivity.
Qed.

Lemma delete_all_keys {V : Type} (ids : list string) (m : list (string * V)) :
  (forall k, In k (JsMap.keys m) -> In k ids) ->
  fold_left (fun m k => JsMap.delete k m) ids m = [].
Proof.
  revert m. induction ids as [|i ids IH]; intros m H; simpl.
  - destruct m as [|[k v] m]; [reflexivity|]. destruct (H k (or_introl eq_refl)).
  - apply IH. intros k Hk. rewrite keys_delete in Hk. apply filter_In in Hk as [Hk Hne].
    destruct (H k Hk) as [->|Hin]; [|exact Hin].
    rewrite String.eqb_refl in Hne. discriminate.
Qed.

Lemma unsubscribe_each_sent (s : nat) (ids : list string) (w : World) :
  wsClient (this w) = Some s -> connected (this w) = true ->
  NoDup ids -> (forall k, In k ids -> JsMap.has k (subscriptions (this w)) = true) ->
  sent (snd (unsubscribe_each ids w)) = map (fun k => (s, UnsubscribeMsg k)) ids.
Proof.
  revert w. induction ids as [|i ids IH]; intros w Hs Hc Hnd Hin; simpl; [reflexivity|].
  apply NoDup_cons in Hnd as [Hni Hnd].
  pose proof (unsubscribe_link i w) as [Hs1 Hc1].
  pose proof (unsubscribe_subscriptions i w) as Hsub.
  assert (He1 : sent (snd (unsubscribe i w)) = [(s, UnsubscribeMsg i)]).
  { unfold unsubscribe. rewrite (Hin i (or_introl eq_refl)), Hs, Hc. reflexivity. }
  destruct (unsubscribe i w) as [w1 e1]. simpl in *.
  assert (IH1 : sent (snd (unsubscribe_each ids w1)) = map (fun k => (s, UnsubscribeMsg k)) ids).
  { apply IH; try congruence.
    intros k Hk. rewrite Hsub. apply has_keys. rewrite keys_delete. apply filter_In.
    split; [apply has_keys, Hin; right; exact Hk|].
    apply negb_true_iff, String.eqb_neq. intros ->. apply Hni, list_elem_of_In, Hk. }
  destruct (unsubscribe_each ids w1) as [w2 e2]. simpl in *.
  rewrite sent_app, He1, IH1. reflexivity.
Qed.

(** X8: [disconnect] on a client that holds no socket (built without
    [enableWebSocket], or already disconnected) only clears [connected] and
    logs: the registry keeps its subscriptions, nothing is sent and nothing
    is closed. In particular a second [disconnect] changes nothing. *)
Theorem disconnect_without_socket_keeps_registry (w : World) :
  (wsClient (this w) = None ->
   subscriptions (this (fst (disconnect w))) = subscriptions (this w) /\
   snd (disconnect w) = [Log Info "Disconnected from Bloomberg Terminal"]) /\
  disconnect (fst (disconnect w))
    = (fst (disconnect w), [Log Info "Disconnected from Bloomberg Terminal"]).
Proof.
  assert (Hnone : forall w0, wsClient (this w0) = None -> connected (this w0) = false ->
            disconnect w0 = (w0, [Log Info "Disconnected from Bloomberg Terminal"])).
  { intros [[ws subs conn] so ti] Hw Hc. simpl in *. subst. reflexivity. }
  split.
  - intros H. unfold disconnect. rewrite H. split; reflexivity.
  - destruct (disconnect_state w) as (Hc & Hw & _). apply Hnone; assumption.
Qed.

Lemma disconnect_without_socket_keeps_registry_witness :
  let w := fst (fst (subscribe 1 "a" [equity "AAPL" None] ["last"] returns
                       (fst (new_client false)))) in
  wsClient (this w) = None /\
  subscriptions (this (fst (disconnect w))) = subscriptions (this w) /\
  snd (disconnect w) = [Log Info "Disconnected from Bloomberg Terminal"].
Proof.
  intros w. split; [reflexivity|].
  apply (proj1 (disconnect_without_socket_keeps_registry w)). reflexivity.
Defined.

End DisconnectProperties.

Section DispatchProperties.
Import Client Sample Trace.
Variable JSON_parse : string -> option Js.value.

Lemma matching_cons (dataPoint : MarketDataPoint) (e : string * BloombergSubscription)
    (rest : list (string * BloombergSubscription)) :
  matching dataPoint (e :: rest) =
    match matchesSecurity (security dataPoint) (securities (snd e)) with
    | Js.Normal true => e :: matching dataPoint rest
    | _ => matching dataPoint rest
    end.
Proof.
  unfold matching. simpl.
  destruct (matchesSecurity _ _) as [[|]|err]; reflexivity.
Qed.

Lemma forEach_subscription_all_return (dataPoint : MarketDataPoint)
    (subs : list (string * BloombergSubscription)) :
  Js.nullish (security dataPoint) = false ->
  (forall e, In e (matching dataPoint subs) -> callback (snd e) dataPoint = Js.Normal tt) ->
  forEach_subscription dataPoint subs
    = (invoked_all dataPoint (matching dataPoint subs), Js.Normal tt).
Proof.
  intros Hn. induction subs as [|[k s] rest IH]; intros H; [reflexivity|].
  rewrite forEach_subscription_cons. rewrite matching_cons in H |- *. simpl in H |- *.
  rewrite (matchesSecurity_some _ (securities s) Hn) in H |- *.
  destruct (existsb _ (securities s)).
  - pose proof (H (k, s) (or_introl eq_refl)) as Hr. simpl in Hr. rewrite Hr.
    rewrite IH; [reflexivity|]. intros e He. apply H. right. exact He.
  - apply IH. exact H.
Qed.

Lemma forEach_subscription_throw (dataPoint : MarketDataPoint)
    (before after : list (string * BloombergSubscription))
    (k : string) (s : BloombergSubscription) (err : Js.error) :
  Js.nullish (security dataPoint) = false ->
  (forall e, In e (matching dataPoint before) -> callback (snd e) dataPoint = Js.Normal tt) ->
  matchesSecurity (security dataPoint) (securities s) = Js.Normal true ->
  callback s dataPoint = Js.Thrown err ->
  forEach_subscription dataPoint (before ++ (k, s) :: after)
    = (invoked_all dataPoint (matching dataPoint before) ++ [Invoked (id s) dataPoint],
       Js.Thrown err).
Proof.
  intros Hn Hb Hm Ht. induction before as [|[k0 s0] before IH].
  - rewrite app_nil_l, forEach_subscription_cons, Hm, Ht. reflexivity.
  - rewrite <- app_comm_cons, forEach_subscription_cons. rewrite matching_cons in Hb |- *. simpl in Hb |- *.
    rewrite (matchesSecurity_some _ (securities s0) Hn) in Hb |- *.
    destruct (existsb _ (securities s0)).
    + pose proof (Hb (k0, s0) (or_introl eq_refl)) as Hr. simpl in Hr. rewrite Hr.
      rewrite IH; [reflexivity|]. intros e He. apply Hb. right. exact He.
    + apply IH. exact Hb.
Qed.

End DispatchProperties.

Section DispatchEdges.
Import Client Sample Sample2 Trace.

Lemma forEach_subscription_unreadable (dataPoint : MarketDataPoint)
    (subs : list (string * BloombergSubscription)) :
  Js.nullish (security dataPoint) = true ->
  fst (forEach_subscription dataPoint subs) = [] /\
  (forallb (fun e => match securities (snd e) with [] => true | _ :: _ => false end) subs = true
   <-> snd (forEach_subscription dataPoint subs) = Js.Normal tt).
Proof.
  intros Hn. induction subs as [|[k s] rest [IH1 IH2]]; [split; [|split]; reflexivity|].
  rewrite forEach_subscription_cons. simpl.
  destruct (securities s) as [|sec secs]; simpl; [split; assumption|].
  destruct (security dataPoint); try discriminate Hn; simpl;
    (split; [reflexivity | split; discriminate]).
Qed.

End DispatchEdges.

(** * Further properties of the live workbooks *)

Section LiveWorkbookProperties.
Import Excel Sample Handles.

Lemma get_delete_same {V : Type} (k : string) (m : list (string * V)) :
  JsMap.get k (JsMap.delete k m) = None.
Proof.
  induction m as [|[k' v] m IH]; simpl; [reflexivity|].
  destruct (String.eqb k' k) eqn:E; simpl; [exact IH|]. rewrite E. exact IH.
Qed.

Lemma task_of_clear_other (handle other : nat) (armed : list (nat * Task)) :
  handle <> other -> task_of handle (clear other armed) = task_of handle armed.
Proof.
  intros Hne. induction armed as [|[h t] armed IH]; simpl; [reflexivity|].
  destruct (Nat.eqb h other) eqn:E; simpl.
  - apply Nat.eqb_eq in E. subst h.
    destruct (Nat.eqb other handle) eqn:E'; [apply Nat.eqb_eq in E'; congruence | exact IH].
  - destruct (Nat.eqb h handle); [reflexivity | exact IH].
Qed.

Lemma clear_matching_other (workbookId : string) (entries : list (string * nat))
    (handle : nat) :
  (forall rangeId, In (rangeId, handle) entries -> String.prefix workbookId rangeId = false) ->
  forall armed : list (nat * Task),
  task_of handle (snd (fst (clear_matching workbookId entries armed))) = task_of handle armed.
Proof.
  induction entries as [|[rangeId0 h0] rest IH]; intros H armed; simpl; [reflexivity|].
  assert (Hrest : forall rangeId, In (rangeId, handle) rest ->
                    String.prefix workbookId rangeId = false).
  { intros rangeId Hin. apply H. right. exact Hin. }
  destruct (String.prefix workbookId rangeId0) eqn:E.
  - specialize (IH Hrest (clear h0 armed)).
    destruct (clear_matching workbookId rest (clear h0 armed)) as [[kept armed'] e].
    simpl in *. rewrite IH. apply task_of_clear_other. intros ->.
    rewrite (H rangeId0 (or_introl eq_refl)) in E. discriminate.
  - specialize (IH Hrest armed).
    destruct (clear_matching workbookId rest armed) as [[kept armed'] e]. exact IH.
Qed.

(** X13: closing a live workbook leaves armed, with its task, every
    interval whose handle is not remembered under a range identifier that
    starts with the workbook's identifier. *)
Theorem closeLiveWorkbook_keeps_other_intervals
    (workbookId : string) (w : World) (handle : nat) :
  (forall rangeId, In (rangeId, handle) (updateIntervals (this w)) ->
     String.prefix workbookId rangeId = false) ->
  task_of handle (intervals (fst (closeLiveWorkbook workbookId w)))
    = task_of handle (intervals w).
Proof.
  intros H. unfold closeLiveWorkbook.
  pose proof (clear_matching_other workbookId (updateIntervals (this w)) handle H
                (intervals w)) as Hk.
  destruct (clear_matching workbookId (updateIntervals (this w)) (intervals w))
    as [[kept armed] e]. exact Hk.
Qed.

(** X14: once a live workbook is closed, no firing of any interval writes
    that workbook's file: an interval that still names the workbook finds
    it gone, logs the failure and writes nothing. *)
Theorem closed_workbook_is_never_written
    (workbookId : string) (w : World) (handle : nat) (write : WriteResult)
    (filePath : string) :
  let closed := fst (closeLiveWorkbook workbookId w) in
  ~ In (WriteFile workbookId filePath) (snd (fst (on_interval handle write closed))).
Proof.
  intros closed.
  assert (Hgone : JsMap.get workbookId (activeWorkbooks (this closed)) = None).
  { subst closed. unfold closeLiveWorkbook.
    destruct (clear_matching workbookId (updateIntervals (this w)) (intervals w))
      as [[kept armed] e]. simpl. apply get_delete_same. }
  unfold on_interval. destruct (task_of handle (intervals closed)) as [t|]; [|intros []].
  unfold refreshLiveWorkbook, refresh_body.
  destruct (String.eqb (task_workbook t) workbookId) eqn:E.
  - apply String.eqb_eq in E. rewrite E, Hgone. simpl. intros [H|[]]. discriminate H.
  - apply String.eqb_neq in E.
    destruct (JsMap.get (task_workbook t) (activeWorkbooks (this closed))); simpl.
    + destruct write; simpl; intros H;
        repeat match type of H with _ \/ _ => destruct H as [H|H] end;
        try discriminate H; try contradiction; injection H as H1 _; exact (E H1).
    + intros [H|[]]. discriminate H.
Qed.

(** X15: a firing interval never throws and never changes the connector,
    whatever the outcome of the write; and it calls [writeFile] exactly
    when the interval is armed and its workbook is among the active
    workbooks. *)
Theorem interval_firing_is_contained (w : World) (handle : nat) (write : WriteResult) :
  fst (fst (on_interval handle write w)) = w /\
  snd (on_interval handle write w) = Js.Normal tt /\
  forall workbookId filePath,
    In (WriteFile workbookId filePath) (snd (fst (on_interval handle write w))) <->
    task_of handle (intervals w)
      = Some {| task_workbook := workbookId; task_file := filePath |} /\
    JsMap.has workbookId (activeWorkbooks (this w)) = true.
Proof.
  unfold on_interval. destruct (task_of handle (intervals w)) as [[wb path]|].
  2:{ split; [reflexivity|]. split; [reflexivity|]. intros wb path. simpl.
      split; [intros [] | intros [H _]; discriminate H]. }
  unfold refreshLiveWorkbook, refresh_body. simpl.
  destruct (JsMap.get wb (activeWorkbooks (this w))) as [book|] eqn:Hg.
  - assert (Hh : JsMap.has wb (activeWorkbooks (this w)) = true).
    { apply has_keys. clear -Hg. induction (activeWorkbooks (this w)) as [|[k v] m IH];
        simpl in *; [discriminate|].
      destruct (String.eqb k wb) eqn:E; [left; apply String.eqb_eq; exact E | right; auto]. }
    destruct write; simpl; (split; [reflexivity|]; split; [reflexivity|]);
      intros wb' path'; (split;
        [ intros H; repeat match type of H with _ \/ _ => destruct H as [H|H] end;
          try discriminate H; try contradiction;
          injection H as -> ->; split; [reflexivity | exact Hh]
        | intros [[= -> ->] _]; left; reflexivity ]).
  - assert (Hh : JsMap.has wb (activeWorkbooks (this w)) = false).
    { clear -Hg. induction (activeWorkbooks (this w)) as [|[k v] m IH]; simpl in *;
        [reflexivity|]. destruct (String.eqb k wb); [discriminate | auto]. }
    simpl. split; [reflexivity|]. split; [reflexivity|]. intros wb' path'. split.
    + intros [H|[]]. discriminate H.
    + intros [[= -> ->] H]. congruence.
Qed.

End LiveWorkbookProperties.

Section LiveWorkbookCreation.
Import Excel Sample Sample3 Handles.

Lemma Excel_sent_app (a b : list Effect) : sent (a ++ b) = sent a ++ sent b.
Proof. unfold sent. apply omap_app. Qed.

Lemma Client_sent_app (a b : list Client.Effect) :
  Client.sent (a ++ b) = Client.sent a ++ Client.sent b.
Proof. unfold Client.sent. apply omap_app. Qed.

Lemma sent_of_client (e : list Client.Effect) : sent (map OfClient e) = Client.sent e.
Proof.
  induction e as [|x e IH]; [reflexivity|].
  destruct x; simpl; try exact IH. f_equal. exact IH.
Qed.

(** One round of the loop of [createLiveWorkbook], field by field. *)
Lemma add_range_spec (workbookId filePath : string) (w : World)
    (r : LiveDataRange) (now : Z) (random : string) :
  let w1 := fst (add_range workbookId filePath w (r, (now, random))) in
  let rangeId := (workbookId ++ "_" ++ worksheet r)%string in
  config (this w1) = config (this w) /\
  activeWorkbooks (this w1) = activeWorkbooks (this w) /\
  liveRanges (this w1) = JsMap.set rangeId r (liveRanges (this w)) /\
  bloombergClient w1
    = fst (fst (Client.subscribe now random (request r) (fields r)
                  (fun _ => Js.Normal tt) (bloombergClient w))) /\
  sent (snd (add_range workbookId filePath w (r, (now, random))))
    = Client.sent (snd (fst (Client.subscribe now random (request r) (fields r)
                               (fun _ => Js.Normal tt) (bloombergClient w)))) /\
  (if autoRefresh (config (this w))
   then updateIntervals (this w1) = JsMap.set rangeId (handles w) (updateIntervals (this w)) /\
        intervals w1 = intervals w ++ [(handles w, {| task_workbook := workbookId;
                                                      task_file := filePath |})] /\
        handles w1 = S (handles w)
   else updateIntervals (this w1) = updateIntervals (this w) /\
        intervals w1 = intervals w /\
        handles w1 = handles w).
Proof.
  unfold add_range, request. cbv zeta. unfold Client.subscribe. cbv zeta.
  destruct (autoRefresh (config (this w))); cbn [fst snd this config activeWorkbooks
    liveRanges updateIntervals bloombergClient intervals handles];
    rewrite ?Excel_sent_app, sent_of_client, ?app_nil_r; repeat split; reflexivity.
Qed.

Lemma add_ranges_spec (workbookId filePath : string)
    (ranges : list (LiveDataRange * (Z * string))) :
  forall w : World,
  let w' := fst (add_ranges workbookId filePath w ranges) in
  let client := Client.this (bloombergClient w) in
  let client' := Client.this (bloombergClient w') in
  let task := {| task_workbook := workbookId; task_file := filePath |} in
  config (this w') = config (this w) /\
  activeWorkbooks (this w') = activeWorkbooks (this w) /\
  Client.wsClient client' = Client.wsClient client /\
  Client.connected client' = Client.connected client /\
  sent (snd (add_ranges workbookId filePath w ranges))
    = match Client.wsClient client, Client.connected client with
      | Some s, true => map (registration s) ranges
      | _, _ => []
      end /\
  (if autoRefresh (config (this w))
   then intervals w' = intervals w ++ map (fun h => (h, task)) (seq (handles w) (length ranges)) /\
        handles w' = (handles w + length ranges)%nat
   else intervals w' = intervals w /\ handles w' = handles w /\
        updateIntervals (this w') = updateIntervals (this w)) /\
  (forall k S, JsMap.get k (Client.subscriptions client') = Some S ->
     JsMap.get k (Client.subscriptions client) = Some S \/
     exists e, In e ranges /\ Bloomberg.securities S = request (fst e)).
Proof.
  induction ranges as [|[r [now random]] rest IH]; intros w.
  - simpl. destruct (Client.wsClient _); [destruct (Client.connected _)|];
      destruct (autoRefresh _); rewrite ?app_nil_r, ?Nat.add_0_r; repeat split; auto.
  - cbn [add_ranges].
    pose proof (add_range_spec workbookId filePath w r now random)
      as (Hc & Ha & _ & Hb & Hs & Hi).
    destruct (add_range workbookId filePath w (r, (now, random))) as [w1 e1].
    cbn [fst snd] in Hc, Ha, Hb, Hs, Hi.
    specialize (IH w1). destruct (add_ranges workbookId filePath w1 rest) as [w2 e2].
    cbn [fst snd] in IH |- *.
    destruct IH as (Hc2 & Ha2 & Hw2 & Hn2 & Hs2 & Hi2 & Hr2).
    assert (Hlink : Client.wsClient (Client.this (bloombergClient w1))
                      = Client.wsClient (Client.this (bloombergClient w)) /\
                    Client.connected (Client.this (bloombergClient w1))
                      = Client.connected (Client.this (bloombergClient w))).
    { rewrite Hb. split; reflexivity. }
    destruct Hlink as [Hw1 Hn1].
    split; [congruence|]. split; [congruence|]. split; [congruence|]. split; [congruence|].
    split; [|split].
    + rewrite Excel_sent_app, Hs, Hs2, Hw1, Hn1. unfold Client.subscribe. cbn [fst snd].
      rewrite Client_sent_app.
      destruct (Client.wsClient (Client.this (bloombergClient w))) as [s|];
        [destruct (Client.connected (Client.this (bloombergClient w)))|]; reflexivity.
    + rewrite Hc in Hi2. destruct (autoRefresh (config (this w))).
      * destruct Hi as (_ & Hi & Hh). destruct Hi2 as [Hi2 Hh2].
        rewrite Hi2, Hi, Hh2, Hh, <- app_assoc. split; [|simpl; lia].
        f_equal.
      * destruct Hi as (Hu & Hi & Hh). destruct Hi2 as (Hi2 & Hh2 & Hu2).
        repeat split; congruence.
    + intros k S Hk. destruct (Hr2 k S Hk) as [Hprev|[e [He HS]]].
      * rewrite Hb in Hprev. unfold Client.subscribe in Hprev.
        cbn [fst snd Client.this Client.subscriptions Client.with_this] in Hprev.
        destruct (String.eqb (Client.subscriptionId now random) k) eqn:E.
        -- apply String.eqb_eq in E. subst k. rewrite get_set_same in Hprev.
           injection Hprev as <-. right. exists (r, (now, random)).
           split; [left; reflexivity | reflexivity].
        -- apply String.eqb_neq in E. rewrite (get_set_other _ _ _ _ E) in Hprev.
           left. exact Hprev.
      * right. exists e. split; [right; exact He | exact HS].
Qed.

End LiveWorkbookCreation.

Section LiveWorkbookLifecycle.
Import Excel Sample Sample3 Handles.

Lemma createLiveWorkbook_unfold (workbookId : string)
    (ranges : list (LiveDataRange * (Z * string))) (filePath : string) (w : World) :
  exists w0 tail,
    config (this w0) = config (this w) /\
    activeWorkbooks (this w0) = JsMap.set workbookId NewWorkbook (activeWorkbooks (this w)) /\
    liveRanges (this w0) = liveRanges (this w) /\
    updateIntervals (this w0) = updateIntervals (this w) /\
    bloombergClient w0 = bloombergClient w /\
    intervals w0 = intervals w /\ handles w0 = handles w /\
    sent tail = [] /\
    createLiveWorkbook workbookId ranges filePath w
      = (fst (add_ranges workbookId filePath w0 ranges),
         snd (add_ranges workbookId filePath w0 ranges) ++ tail).
Proof.
  unfold createLiveWorkbook. cbv zeta.
  match goal with |- context [add_ranges _ _ ?x _] => exists x end.
  eexists. repeat split; [| destruct (add_ranges _ _ _ _); reflexivity]. reflexivity.
Qed.

(** X16: [createLiveWorkbook] puts the workbook among the active
    workbooks; with [autoRefresh] on it arms one interval per range, with
    handles numbered consecutively from the handle counter, each running
    the refresh of this workbook to this file; with [autoRefresh] off (the
    default) it arms none and remembers no handle. *)
Theorem createLiveWorkbook_arms_one_interval_per_range (workbookId : string)
    (ranges : list (LiveDataRange * (Z * string))) (filePath : string) (w : World) :
  let w' := fst (createLiveWorkbook workbookId ranges filePath w) in
  let task := {| task_workbook := workbookId; task_file := filePath |} in
  JsMap.has workbookId (activeWorkbooks (this w')) = true /\
  (if autoRefresh (config (this w))
   then intervals w' = intervals w ++ map (fun h => (h, task)) (seq (handles w) (length ranges)) /\
        handles w' = (handles w + length ranges)%nat
   else intervals w' = intervals w /\ handles w' = handles w /\
        updateIntervals (this w') = updateIntervals (this w)).
Proof.
  destruct (createLiveWorkbook_unfold workbookId ranges filePath w)
    as (w0 & tail & Hc & Ha & _ & Hu & _ & Hi & Hh & _ & ->).
  cbn [fst].
  destruct (add_ranges_spec workbookId filePath ranges w0) as (_ & Ha' & _ & _ & _ & Hi' & _).
  split.
  - rewrite Ha', Ha. apply has_set.
  - rewrite Hc, Hi, Hh, Hu in Hi'. exact Hi'.
Qed.

(** X17: [createLiveWorkbook] sends one registration message per range,
    in order, on the client's socket when the client is connected, and
    sends nothing when it is not: a live workbook created before the socket
    has opened registers nothing with the feed. *)
Theorem createLiveWorkbook_registers_only_when_connected (workbookId : string)
    (ranges : list (LiveDataRange * (Z * string))) (filePath : string) (w : World) :
  sent (snd (createLiveWorkbook workbookId ranges filePath w))
    = match Client.wsClient (Client.this (bloombergClient w)),
            Client.connected (Client.this (bloombergClient w)) with
      | Some s, true => map (registration s) ranges
      | _, _ => []
      end.
Proof.
  destruct (createLiveWorkbook_unfold workbookId ranges filePath w)
    as (w0 & tail & _ & _ & _ & _ & Hb & _ & _ & Ht & ->).
  cbn [snd]. rewrite Excel_sent_app, Ht, app_nil_r.
  destruct (add_ranges_spec workbookId filePath ranges w0) as (_ & _ & _ & _ & Hs & _).
  rewrite Hs, Hb. reflexivity.
Qed.

(** In the flow of examples/live-updates.ts the workbook is created before
    the socket opens: nothing is registered. *)
Example early_live_workbook_registers_nothing :
  sent (snd (createLiveWorkbook "live-market-data"
               [(tech_stocks, (1700000000000%Z, "4fzzzxjyl"))]
               "output/live-market-data.xlsx" early_connector)) = [].
Proof. reflexivity. Qed.

Lemma request_matches (r : LiveDataRange) (v : Js.value) :
  Js.nullish v = false ->
  (Client.matchesSecurity v (request r) = Js.Normal true <->
   Js.field v "exchange" = Js.JUndefined /\
   exists t, In t (securities r) /\ Js.field v "ticker" = Js.JStr t).
Proof.
  intros Hn. rewrite (matchesSecurity_some v (request r) Hn). unfold request.
  split.
  - intros H. injection H as H. apply existsb_exists in H as (sec & Hin & Hb).
    apply in_map_iff in Hin as (t & <- & Hin). cbn [ticker exchange] in Hb.
    apply andb_true_iff in Hb as [Ht He].
    apply strict_eq_string_spec in Ht. apply strict_eq_optional_spec in He.
    split; [exact He | exists t; split; assumption].
  - intros (He & t & Hin & Ht). f_equal. apply existsb_exists.
    eexists. split; [apply in_map_iff; exists t; split; [reflexivity | exact Hin]|].
    cbn [ticker exchange]. apply andb_true_iff. split.
    + apply strict_eq_string_spec. exact Ht.
    + apply strict_eq_optional_spec. exact He.
Qed.

(** X18: every subscription that [createLiveWorkbook] leaves in the
    client's registry was there before or asks for the tickers of one of
    the ranges without an exchange; and such a request matches a tick
    exactly when the tick's ticker is one of the range's and the tick
    carries no exchange. The callback of a live range is therefore never
    invoked for a tick that names its exchange. *)
Theorem live_range_matches_only_ticks_without_exchange (workbookId : string)
    (ranges : list (LiveDataRange * (Z * string))) (filePath : string) (w : World) :
  let before := Client.subscriptions (Client.this (bloombergClient w)) in
  let after := Client.subscriptions (Client.this (bloombergClient
                 (fst (createLiveWorkbook workbookId ranges filePath w)))) in
  (forall k S, JsMap.get k after = Some S ->
     JsMap.get k before = Some S \/
     exists e, In e ranges /\ Bloomberg.securities S = request (fst e)) /\
  (forall r v, Js.nullish v = false ->
     (Client.matchesSecurity v (request r) = Js.Normal true <->
      Js.field v "exchange" = Js.JUndefined /\
      exists t, In t (securities r) /\ Js.field v "ticker" = Js.JStr t)).
Proof.
  split; [|apply request_matches].
  destruct (createLiveWorkbook_unfold workbookId ranges filePath w)
    as (w0 & tail & _ & _ & _ & _ & Hb & _ & _ & _ & ->).
  cbn [fst].
  destruct (add_ranges_spec workbookId filePath ranges w0) as (_ & _ & _ & _ & _ & _ & Hr).
  rewrite Hb in Hr. exact Hr.
Qed.

(** The range of the example does not match a tick for its own ticker
    once the tick names the exchange. *)
Example tech_stocks_ignores_exchange_tick :
  Client.matchesSecurity AAPL_NASDAQ (request tech_stocks) = Js.Normal false /\
  Client.matchesSecurity AAPL_only (request tech_stocks) = Js.Normal true.
Proof. split; reflexivity. Qed.

End LiveWorkbookLifecycle.

Section IntervalHandles.
Import Excel Sample Sample3 Handles.

Lemma set_set_same {V : Type} (k : string) (a b : V) (m : list (string * V)) :
  JsMap.set k b (JsMap.set k a m) = JsMap.set k b m.
Proof.
  induction m as [|[k' v] m IH]; simpl.
  - rewrite String.eqb_refl. reflexivity.
  - destruct (String.eqb k' k) eqn:E; simpl; rewrite E; [reflexivity | f_equal; exact IH].
Qed.

Lemma in_snd_set {V : Type} (k : string) (b x : V) (m : list (string * V)) :
  In x (map snd (JsMap.set k b m)) -> x = b \/ In x (map snd m).
Proof.
  induction m as [|[k' v] m IH]; simpl.
  - intros [H|[]]. left. congruence.
  - destruct (String.eqb k' k); simpl.
    + intros [H|H]; [left; congruence | right; right; exact H].
    + intros [H|H]; [right; left; exact H|]. destruct (IH H) as [H'|H']; auto.
Qed.

Lemma Forall_set {V : Type} (P : string * V -> Prop) (k : string) (b : V)
    (m : list (string * V)) :
  (forall k', P (k', b)) -> Forall P m -> Forall P (JsMap.set k b m).
Proof.
  intros Hb H. induction H as [|[k' v] m Hx Hm IH]; simpl.
  - constructor; [apply Hb | constructor].
  - destruct (String.eqb k' k); constructor; auto.
Qed.

Lemma task_of_app_fresh (h : nat) (t : Task) (armed rest : list (nat * Task)) :
  Forall (fun e => fst e <> h) armed -> task_of h (armed ++ (h, t) :: rest) = Some t.
Proof.
  induction 1 as [|[h' t'] armed Hx _ IH]; simpl.
  - rewrite Nat.eqb_refl. reflexivity.
  - simpl in Hx. apply Nat.eqb_neq in Hx. rewrite Hx. exact IH.
Qed.

Lemma task_of_fold_clear_other (h : nat) (upd : list (string * nat)) :
  ~ In h (map snd upd) ->
  forall armed : list (nat * Task),
  task_of h (fold_left (fun a e => clear (snd e) a) upd armed) = task_of h armed.
Proof.
  induction upd as [|[k h'] upd IH]; intros Hn armed; simpl; [reflexivity|].
  rewrite IH; [|intros H; apply Hn; right; exact H].
  apply task_of_clear_other. intros ->. apply Hn. left. reflexivity.
Qed.

Lemma task_of_fold_clear_none (h : nat) (upd : list (string * nat)) :
  forall armed : list (nat * Task),
  task_of h armed = None ->
  task_of h (fold_left (fun a e => clear (snd e) a) upd armed) = None.
Proof.
  induction upd as [|[k h'] upd IH]; intros armed H; simpl; [exact H|].
  apply IH, task_of_clear_none, H.
Qed.

Lemma task_of_fold_clear_in (h : nat) (upd : list (string * nat)) :
  In h (map snd upd) ->
  forall armed : list (nat * Task),
  task_of h (fold_left (fun a e => clear (snd e) a) upd armed) = None.
Proof.
  induction upd as [|[k h'] upd IH]; intros Hin armed; simpl in *; [destruct Hin|].
  destruct (Nat.eq_dec h' h) as [->|Hne].
  - apply task_of_fold_clear_none, task_of_clear_same.
  - apply IH. destruct Hin as [H|H]; [contradiction | exact H].
Qed.

(** X19: the connector's own [disconnect] clears every interval whose
    handle it remembers and leaves every other interval armed; it forgets
    all handles, ranges and workbooks, and it does not touch the shared
    client: nothing is unsubscribed. *)
Theorem connector_disconnect_clears_remembered_intervals (w : World) :
  let d := fst (disconnect w) in
  (forall h, In h (remembered w) -> task_of h (intervals d) = None) /\
  (forall h, ~ In h (remembered w) -> task_of h (intervals d) = task_of h (intervals w)) /\
  remembered d = [] /\
  bloombergClient d = bloombergClient w /\
  sent (snd (disconnect w)) = [].
Proof.
  unfold disconnect, remembered. cbn [fst snd this updateIntervals intervals bloombergClient].
  split; [intros h Hin; apply task_of_fold_clear_in; exact Hin|].
  split; [intros h Hn; apply task_of_fold_clear_other; exact Hn|].
  split; [reflexivity|]. split; [reflexivity|].
  rewrite Excel_sent_app. simpl. rewrite app_nil_r.
  induction (updateIntervals (this w)) as [|e l IH]; [reflexivity | exact IH].
Qed.

Lemma create_single (workbookId filePath : string) (r : LiveDataRange)
    (d : Z * string) (w : World) :
  autoRefresh (config (this w)) = true ->
  let w1 := fst (createLiveWorkbook workbookId [(r, d)] filePath w) in
  config (this w1) = config (this w) /\
  updateIntervals (this w1)
    = JsMap.set (workbookId ++ "_" ++ worksheet r)%string (handles w) (updateIntervals (this w)) /\
  intervals w1 = intervals w ++ [(handles w, {| task_workbook := workbookId;
                                                task_file := filePath |})] /\
  handles w1 = S (handles w).
Proof.
  intros Ha. destruct d as [now random].
  destruct (createLiveWorkbook_unfold workbookId [(r, (now, random))] filePath w)
    as (w0 & tail & Hc & _ & _ & Hu & _ & Hi & Hh & _ & ->).
  cbn [fst add_ranges].
  pose proof (add_range_spec workbookId filePath w0 r now random) as (Hc1 & _ & _ & _ & _ & H1).
  destruct (add_range workbookId filePath w0 (r, (now, random))) as [w1 e1].
  cbn [fst snd] in *. rewrite Hc, Ha in H1. destruct H1 as (Hu1 & Hi1 & Hh1).
  repeat split; congruence.
Qed.

(** X20: creating a live workbook a second time for the same range loses
    the first interval: its handle is no longer remembered, so it stays
    armed, still refreshing the workbook, and neither [closeLiveWorkbook]
    of any workbook nor the connector's [disconnect] clears it. *)
Theorem recreated_workbook_leaks_interval (workbookId filePath : string)
    (r : LiveDataRange) (d1 d2 : Z * string) (w : World) :
  autoRefresh (config (this w)) = true ->
  fresh w ->
  let w2 := fst (createLiveWorkbook workbookId [(r, d2)] filePath
                   (fst (createLiveWorkbook workbookId [(r, d1)] filePath w))) in
  let task := {| task_workbook := workbookId; task_file := filePath |} in
  ~ In (handles w) (remembered w2) /\
  task_of (handles w) (intervals (fst (disconnect w2))) = Some task /\
  forall other, task_of (handles w) (intervals (fst (closeLiveWorkbook other w2))) = Some task.
Proof.
  intros Ha [Fu Fi] w2 task.
  destruct (create_single workbookId filePath r d1 w Ha) as (Hc1 & Hu1 & Hi1 & Hh1).
  set (w1 := fst (createLiveWorkbook workbookId [(r, d1)] filePath w)) in *.
  assert (Ha1 : autoRefresh (config (this w1)) = true) by congruence.
  destruct (create_single workbookId filePath r d2 w1 Ha1) as (_ & Hu2 & Hi2 & _).
  fold w2 in Hu2, Hi2. rewrite Hu1, set_set_same, Hh1 in Hu2. rewrite Hi1, Hh1 in Hi2.
  assert (Hrem : ~ In (handles w) (remembered w2)).
  { unfold remembered. rewrite Hu2. intros Hin. apply in_snd_set in Hin as [Hin|Hin]; [lia|].
    apply in_map_iff in Hin as (e & He & Hin).
    rewrite List.Forall_forall in Fu. specialize (Fu e Hin). lia. }
  assert (Harmed : task_of (handles w) (intervals w2) = Some task).
  { rewrite Hi2, <- app_assoc. apply task_of_app_fresh.
    eapply List.Forall_impl; [|exact Fi]. intros e He. simpl in He. lia. }
  split; [exact Hrem|]. split.
  - unfold disconnect. cbn [fst intervals]. rewrite task_of_fold_clear_other; assumption.
  - intros other. unfold closeLiveWorkbook.
    pose proof (clear_matching_other other (updateIntervals (this w2)) (handles w)) as Hk.
    destruct (clear_matching other (updateIntervals (this w2)) (intervals w2))
      as [[kept armed] e] eqn:E. cbn [fst intervals].
    specialize (Hk ltac:(intros rangeId Hin; exfalso; apply Hrem; unfold remembered;
                         apply in_map_iff; exists (rangeId, handles w); split; auto)
                   (intervals w2)).
    rewrite E in Hk. simpl in Hk. rewrite Hk. exact Harmed.
Qed.

Lemma recreated_workbook_leaks_interval_witness :
  let task := {| task_workbook := "live-market-data";
                 task_file := "output/live-market-data.xlsx" |} in
  let w2 := fst (createLiveWorkbook "live-market-data"
                   [(tech_stocks, (1700000000002%Z, "a1b2c3d4e"))]
                   "output/live-market-data.xlsx"
                   (fst (createLiveWorkbook "live-market-data"
                           [(tech_stocks, (1700000000000%Z, "4fzzzxjyl"))]
                           "output/live-market-data.xlsx" connector))) in
  autoRefresh (config (this connector)) = true /\
  fresh connector /\
  task_of (handles connector) (intervals (fst (disconnect w2))) = Some task.
Proof.
  intros task w2.
  assert (Hf : fresh connector) by (split; constructor).
  split; [reflexivity|]. split; [exact Hf|].
  apply (proj1 (proj2 (recreated_workbook_leaks_interval "live-market-data"
                         "output/live-market-data.xlsx" tech_stocks
                         (1700000000000%Z, "4fzzzxjyl") (1700000000002%Z, "a1b2c3d4e")
                         connector eq_refl Hf))).
Defined.

Lemma closeLiveWorkbook_keeps_other_intervals_witness :
  (forall rangeId, In (rangeId, 1%nat) (updateIntervals (this two_books)) ->
     String.prefix "live-market-data" rangeId = false) /\
  task_of 1 (intervals (fst (closeLiveWorkbook "live-market-data" two_books)))
    = task_of 1 (intervals two_books).
Proof.
  assert (H : forall rangeId, In (rangeId, 1%nat) (updateIntervals (this two_books)) ->
                String.prefix "live-market-data" rangeId = false).
  { intros rangeId [H|[H|[]]]; [discriminate H | injection H as <-; reflexivity]. }
  split; [exact H|].
  apply (closeLiveWorkbook_keeps_other_intervals "live-market-data" two_books 1 H).
Defined.

End IntervalHandles.

Section HandleFreshness.
Import Excel Sample Sample3 Handles.

Lemma Forall_List_filter {A : Type} (P : A -> Prop) (f : A -> bool) (l : list A) :
  Forall P l -> Forall P (List.filter f l).
Proof.
  induction 1 as [|x l Hx _ IH]; simpl; [constructor|].
  destruct (f x); [constructor|]; assumption.
Qed.

Lemma fresh_add_range (workbookId filePath : string) (w : World)
    (entry : LiveDataRange * (Z * string)) :
  fresh w -> fresh (fst (add_range workbookId filePath w entry)).
Proof.
  intros [Fu Fi]. destruct entry as [r [now random]].
  pose proof (add_range_spec workbookId filePath w r now random) as (_ & _ & _ & _ & _ & H).
  destruct (add_range workbookId filePath w (r, (now, random))) as [w1 e1].
  cbn [fst snd] in *. destruct (autoRefresh (config (this w))).
  - destruct H as (Hu & Hi & Hh). split.
    + rewrite Hu, Hh. apply Forall_set; [intros k'; simpl; lia|].
      eapply List.Forall_impl; [|exact Fu]. intros e He. simpl in He. lia.
    + rewrite Hi, Hh. apply Forall_app. split.
      * eapply List.Forall_impl; [|exact Fi]. intros e He. simpl in He. lia.
      * constructor; [simpl; lia | constructor].
  - destruct H as (Hu & Hi & Hh). split; rewrite ?Hu, ?Hi, Hh; assumption.
Qed.

Lemma fresh_add_ranges (workbookId filePath : string)
    (ranges : list (LiveDataRange * (Z * string))) (w : World) :
  fresh w -> fresh (fst (add_ranges workbookId filePath w ranges)).
Proof.
  revert w. induction ranges as [|entry rest IH]; intros w H; [exact H|].
  cbn [add_ranges]. pose proof (fresh_add_range workbookId filePath w entry H) as H1.
  destruct (add_range workbookId filePath w entry) as [w1 e1]. cbn [fst] in H1.
  specialize (IH w1 H1). destruct (add_ranges workbookId filePath w1 rest) as [w2 e2].
  exact IH.
Qed.

Lemma clear_matching_sublist (P : nat * Task -> Prop) (workbookId : string)
    (entries : list (string * nat)) :
  forall armed, Forall P armed ->
  Forall P (snd (fst (clear_matching workbookId entries armed))).
Proof.
  induction entries as [|[rangeId h] rest IH]; intros armed H; simpl; [exact H|].
  destruct (String.prefix workbookId rangeId).
  - specialize (IH (clear h armed) (Forall_List_filter _ _ _ H)).
    destruct (clear_matching workbookId rest (clear h armed)) as [[kept armed'] e]. exact IH.
  - specialize (IH armed H).
    destruct (clear_matching workbookId rest armed) as [[kept armed'] e]. exact IH.
Qed.

Lemma fold_clear_sublist (P : nat * Task -> Prop) (upd : list (string * nat)) :
  forall armed, Forall P armed ->
  Forall P (fold_left (fun a e => clear (snd e) a) upd armed).
Proof.
  induction upd as [|e upd IH]; intros armed H; simpl; [exact H|].
  apply IH, Forall_List_filter, H.
Qed.

Lemma on_interval_state (handle : nat) (write : WriteResult) (w : World) :
  fst (fst (on_interval handle write w)) = w.
Proof.
  unfold on_interval. destruct (task_of handle (intervals w)) as [t|]; [|reflexivity].
  unfold refreshLiveWorkbook. destruct (refresh_body _ _ _ _) as [effects [u|e]]; reflexivity.
Qed.

(** The hypothesis of the leak above holds in every state the connector
    reaches: it is kept by each of its operations. *)
Lemma handles_stay_fresh (w : World) :
  fresh w ->
  (forall workbookId ranges filePath,
     fresh (fst (createLiveWorkbook workbookId ranges filePath w))) /\
  (forall workbookId, fresh (fst (closeLiveWorkbook workbookId w))) /\
  fresh (fst (disconnect w)) /\
  (forall handle write, fresh (fst (fst (on_interval handle write w)))).
Proof.
  intros H. split; [|split; [|split]].
  - intros workbookId ranges filePath.
    destruct (createLiveWorkbook_unfold workbookId ranges filePath w)
      as (w0 & tail & _ & _ & _ & Hu & _ & Hi & Hh & _ & ->).
    cbn [fst]. apply fresh_add_ranges. destruct H as [Fu Fi].
    split; rewrite ?Hu, ?Hi, Hh; assumption.
  - intros workbookId. destruct H as [Fu Fi]. unfold closeLiveWorkbook.
    pose proof (clear_matching_kept workbookId (updateIntervals (this w)) (intervals w)) as Hk.
    pose proof (clear_matching_sublist (fun e => (fst e < handles w)%nat) workbookId
                  (updateIntervals (this w)) (intervals w) Fi) as Ha.
    destruct (clear_matching workbookId (updateIntervals (this w)) (intervals w))
      as [[kept armed] e]. cbn [fst snd] in *. subst kept.
    split; cbn [this updateIntervals intervals handles];
      [apply Forall_List_filter; exact Fu | exact Ha].
  - destruct H as [Fu Fi]. split; cbn; [constructor|].
    apply fold_clear_sublist. exact Fi.
  - intros handle write. rewrite on_interval_state. exact H.
Qed.

End HandleFreshness.

(** * Request/response calls *)

Section HttpProperties.
Import Http.

Lemma or_else_truthy (a b : Js.value) : truthy b = true -> truthy (or_else a b) = true.
Proof. intros H. unfold or_else. destruct (truthy a) eqn:E; assumption. Qed.

Lemma handleError_shape (now : Z) (err : Failure) :
  exists e : BloombergError,
    handleError now err
      = ({| success := false; data := None; error := Some e |},
         [LogError "Bloomberg API error" e]) /\
    truthy (code e) = true.
Proof.
  eexists. split; [reflexivity|]. apply or_else_truthy. reflexivity.
Qed.

(** X22: [handleError] never reports success: it returns an error and
    logs it once. The error's code is the [code] of the server's body when
    that is truthy and ["UNKNOWN_ERROR"] otherwise (no response, no body,
    no code, or an empty or zero code), so it is never empty; its message
    is the server's [message] when truthy and the caught error's own
    message otherwise. *)
Theorem handleError_always_reports_a_code (now : Z) (err : Failure) :
  exists e : BloombergError,
    handleError now err
      = ({| success := false; data := None; error := Some e |},
         [LogError "Bloomberg API error" e]) /\
    timestamp e = now /\
    truthy (code e) = true /\
    code e = (if truthy (optional (body_of err) "code")
              then Js.field (body_of err) "code" else Js.JStr "UNKNOWN_ERROR") /\
    message e = (if truthy (optional (body_of err) "message")
                 then Js.field (body_of err) "message"
                 else Js.JStr (failure_message err)).
Proof.
  eexists. split; [reflexivity|]. cbn [timestamp code message].
  split; [reflexivity|]. split; [apply or_else_truthy; reflexivity|].
  unfold or_else, optional.
  destruct (Js.nullish (body_of err)); simpl; split; reflexivity.
Qed.

Lemma respond_resolved (now : Z) (body : Js.value) :
  Js.nullish body = false ->
  respond now (Resolved body)
    = ({| success := true; data := Some (Js.field body "data"); error := None |}, []).
Proof. intros H. unfold respond. rewrite (get_not_nullish _ _ H). reflexivity. Qed.

Lemma respond_unreadable (now : Z) (body : Js.value) :
  Js.nullish body = true ->
  exists e, fst (respond now (Resolved body))
              = {| success := false; data := None; error := Some e |} /\
            code e = Js.JStr "UNKNOWN_ERROR".
Proof.
  intros H. destruct body; try discriminate H; eexists; split; reflexivity.
Qed.

(** X23: [getReferenceData] and [searchSecurities] never throw. They
    report success exactly when the HTTP call resolved with a body that is
    neither [null] nor [undefined], and the data is then the body's [data]
    property, which is [undefined] when the body has none; in every other
    case they return an error with a truthy code, which is
    ["UNKNOWN_ERROR"] when the call resolved. *)
Theorem lookup_calls_report_instead_of_throwing
    (now : Z) (securities : list SecurityIdentifier) (fields : list string)
    (query : string) (limit : option Z) (outcome : Outcome) :
  let r := fst (getReferenceData now securities fields outcome) in
  fst (searchSecurities now query limit outcome) = r /\
  (success r = true <-> exists body, outcome = Resolved body /\ Js.nullish body = false) /\
  (forall body, outcome = Resolved body -> Js.nullish body = false ->
     data r = Some (Js.field body "data") /\ error r = None) /\
  (success r = false ->
     exists e, error r = Some e /\ data r = None /\ truthy (code e) = true /\
       ((forall err, outcome <> Rejected err) -> code e = Js.JStr "UNKNOWN_ERROR")).
Proof.
  assert (Hr : fst (getReferenceData now securities fields outcome) = fst (respond now outcome)
               /\ fst (searchSecurities now query limit outcome) = fst (respond now outcome)).
  { unfold getReferenceData, searchSecurities. destruct (respond now outcome). split; reflexivity. }
  destruct Hr as [Hr1 Hr2]. cbv zeta. rewrite Hr1, Hr2. clear Hr1 Hr2.
  split; [reflexivity|].
  destruct outcome as [body|err].
  - destruct (Js.nullish body) eqn:Hn.
    + destruct (respond_unreadable now body Hn) as (e & -> & Hc). cbn. split; [|split].
      * split; [discriminate | intros (b & [= <-] & H); congruence].
      * intros b [= <-] H. congruence.
      * intros _. exists e. repeat split; [rewrite Hc; reflexivity | intros _; exact Hc].
    + rewrite (respond_resolved now body Hn). cbn. split; [|split].
      * split; [intros _; exists body; split; [reflexivity | exact Hn] | reflexivity].
      * intros b [= <-] _. split; reflexivity.
      * discriminate.
  - cbn [respond]. destruct (handleError_shape now err) as (e & -> & Hc). cbn.
    split; [|split].
    + split; [discriminate | intros (b & H & _); discriminate H].
    + intros b H. discriminate H.
    + intros _. exists e. repeat split; [exact Hc|].
      intros H. exfalso. exact (H err eq_refl).
Qed.

End HttpProperties.

(** * The inbound stream *)

Section InboundStream.
Import Client Sample Sample2 Trace.
Variable JSON_parse : string -> option Js.value.

Lemma on_message_tick (w : World) (data : string) (message : Js.value)
    (tick : MarketDataPoint) :
  JSON_parse data = Some message ->
  Js.field message "type" = Js.JStr "marketData" ->
  dataPoint_of message = Js.Normal tick ->
  on_message JSON_parse data w =
    (w, match forEach_subscription tick (subscriptions (this w)) with
        | (effects, Js.Normal _) => effects ++ [Emit (MarketData tick)]
        | (effects, Js.Thrown _) => effects ++ [parse_failure]
        end).
Proof.
  intros Hp Ht Hd. unfold on_message. rewrite Hp. unfold handleWebSocketMessage.
  rewrite (get_not_nullish _ _ (field_string_not_nullish _ _ _ Ht)), Ht.
  unfold mbind, action_bind, lift, perform. simpl. rewrite Hd.
  destruct (forEach_subscription _ _) as [effects [u|e]]; simpl;
    rewrite ?app_nil_r; reflexivity.
Qed.

Lemma on_message_bad_date (w : World) (data : string) (message : Js.value) :
  JSON_parse data = Some message ->
  Js.field message "type" = Js.JStr "marketData" ->
  Js.unprintable (Js.field message "timestamp") = true ->
  on_message JSON_parse data w = (w, [parse_failure]).
Proof.
  intros Hp Ht Hd. unfold on_message. rewrite Hp. unfold handleWebSocketMessage.
  rewrite (get_not_nullish _ _ (field_string_not_nullish _ _ _ Ht)), Ht.
  unfold mbind, action_bind, lift, perform, dataPoint_of, Js.new_Date. simpl.
  rewrite Hd. reflexivity.
Qed.

Lemma dataPoint_of_printable (message : Js.value) :
  Js.unprintable (Js.field message "timestamp") = false ->
  dataPoint_of message = Js.Normal (point_of message).
Proof. intros H. unfold dataPoint_of, Js.new_Date. rewrite H. reflexivity. Qed.



(** X12: a [marketData] message whose [security] is missing or [null]
    never reaches a callback. It is reported as a failure to parse when
    its timestamp cannot be converted by [new Date] or when some
    subscription lists a security; only when the timestamp converts and no
    subscription lists any security is the [marketData] event emitted. *)
Theorem tick_without_security (w : World) (data : string) (message : Js.value) :
  JSON_parse data = Some message ->
  Js.field message "type" = Js.JStr "marketData" ->
  Js.nullish (Js.field message "security") = true ->
  step JSON_parse w (WsMessage data)
    = (w, [if negb (Js.unprintable (Js.field message "timestamp"))
              && forallb (fun e => match securities (snd e) with
                                   | [] => true
                                   | _ :: _ => false
                                   end)
                   (subscriptions (this w))
           then Emit (MarketData (point_of message))
           else parse_failure]).
Proof.
  intros Hp Ht Hn. cbn [step].
  destruct (Js.unprintable (Js.field message "timestamp")) eqn:Hd.
  - rewrite (on_message_bad_date w data message Hp Ht Hd). reflexivity.
  - rewrite (on_message_tick w data message _ Hp Ht (dataPoint_of_printable _ Hd)).
    destruct (forEach_subscription_unreadable (point_of message)
                (subscriptions (this w)) Hn) as [He Hc].
    destruct (forEach_subscription _ _) as [effects c]. simpl in *. subst effects.
    destruct (forallb _ (subscriptions (this w))).
    + rewrite (proj1 Hc eq_refl). reflexivity.
    + destruct c as [[]|err]; [|reflexivity]. discriminate (proj2 Hc eq_refl).
Qed.

End InboundStream.

Section InboundStreamWitnesses.
Import Client Sample Sample2 Trace.


(** The whole trace of the sample: the failure, then both matching
    callbacks, then the event. *)
Example valid_tick_after_malformed :
  snd (run sample_parse three_subscribers [WsMessage "{oops"; WsMessage "tick AAPL"])
    = [parse_failure;
       Invoked "sub_1_a" (point_of tick_AAPL);
       Invoked "sub_2_b" (point_of tick_AAPL);
       Emit (MarketData (point_of tick_AAPL))].
Proof. reflexivity. Qed.

Lemma tick_without_security_witness :
  sample_parse2 "tick bare" = Some tick_bare /\
  Js.field tick_bare "type" = Js.JStr "marketData" /\
  Js.nullish (Js.field tick_bare "security") = true /\
  step sample_parse2 three_subscribers (WsMessage "tick bare")
    = (three_subscribers, [parse_failure]).
Proof.
  split; [reflexivity|]. split; [reflexivity|]. split; [reflexivity|].
  apply (tick_without_security sample_parse2 three_subscribers "tick bare" tick_bare);
    reflexivity.
Defined.

End InboundStreamWitnesses.

Section ClosingTheClient.
Import Client Sample Trace.

Lemma unsubscribe_each_effects (s : nat) (ids : list string) (w : World) :
  wsClient (this w) = Some s ->
  NoDup ids -> (forall k, In k ids -> JsMap.has k (subscriptions (this w)) = true) ->
  snd (unsubscribe_each ids w) =
    flat_map (fun k => (if connected (this w) then [WsSend s (UnsubscribeMsg k)] else [])
                       ++ [Log Info ("Removed subscription " ++ k)]) ids.
Proof.
  revert w. induction ids as [|i ids IH]; intros w Hs Hnd Hin; simpl; [reflexivity|].
  apply NoDup_cons in Hnd as [Hni Hnd].
  pose proof (unsubscribe_link i w) as [Hs1 Hc1].
  pose proof (unsubscribe_subscriptions i w) as Hsub.
  assert (He1 : snd (unsubscribe i w)
                = (if connected (this w) then [WsSend s (UnsubscribeMsg i)] else [])
                  ++ [Log Info ("Removed subscription " ++ i)]).
  { unfold unsubscribe. rewrite (Hin i (or_introl eq_refl)), Hs. cbn [snd].
    destruct (connected (this w)); reflexivity. }
  destruct (unsubscribe i w) as [w1 e1]. cbn [fst snd] in *.
  assert (IH1 : snd (unsubscribe_each ids w1) =
                flat_map (fun k => (if connected (this w1)
                                    then [WsSend s (UnsubscribeMsg k)] else [])
                                   ++ [Log Info ("Removed subscription " ++ k)]) ids).
  { apply IH; try congruence.
    intros k Hk. rewrite Hsub. apply has_keys. rewrite keys_delete. apply filter_In.
    split; [apply has_keys, Hin; right; exact Hk|].
    apply negb_true_iff, String.eqb_neq. intros ->. apply Hni, list_elem_of_In, Hk. }
  destruct (unsubscribe_each ids w1) as [w2 e2]. cbn [fst snd] in *.
  rewrite He1, IH1, Hc1. reflexivity.
Qed.

(** X7: [disconnect] on a client that holds a socket empties the
    registry. With a well-formed registry its effects are, in this order:
    for each subscription in registration order an unsubscribe request
    (sent only if the client is connected) and a log line, then the close
    of the socket, then the final log line. *)
Theorem disconnect_empties_registry (w : World) (s : nat) :
  wsClient (this w) = Some s ->
  registry_wf (subscriptions (this w)) ->
  subscriptions (this (fst (disconnect w))) = [] /\
  snd (disconnect w) =
    flat_map (fun k => (if connected (this w) then [WsSend s (UnsubscribeMsg k)] else [])
                       ++ [Log Info ("Removed subscription " ++ k)])
             (JsMap.keys (subscriptions (this w)))
    ++ [WsClose s; Log Info "Disconnected from Bloomberg Terminal"].
Proof.
  intros Hs [Hnd _]. unfold disconnect. rewrite Hs.
  pose proof (unsubscribe_each_subscriptions (JsMap.keys (subscriptions (this w))) w) as Hsub.
  pose proof (unsubscribe_each_effects s (JsMap.keys (subscriptions (this w))) w Hs Hnd) as He.
  destruct (unsubscribe_each _ w) as [w' e]. cbn [fst snd] in *.
  split; [cbn; rewrite Hsub; apply delete_all_keys; auto|].
  rewrite He; [rewrite <- app_assoc; reflexivity|].
  intros k Hk. apply has_keys. exact Hk.
Qed.

Lemma disconnect_empties_registry_witness :
  wsClient (this three_subscribers) = Some 0%nat /\
  registry_wf (subscriptions (this three_subscribers)) /\
  subscriptions (this (fst (disconnect three_subscribers))) = [] /\
  snd (disconnect three_subscribers) =
    [WsSend 0 (UnsubscribeMsg "sub_1_a"); Log Info "Removed subscription sub_1_a";
     WsSend 0 (UnsubscribeMsg "sub_2_b"); Log Info "Removed subscription sub_2_b";
     WsSend 0 (UnsubscribeMsg "sub_3_c"); Log Info "Removed subscription sub_3_c";
     WsClose 0; Log Info "Disconnected from Bloomberg Terminal"].
Proof.
  assert (Hwf : registry_wf (subscriptions (this three_subscribers))).
  { apply registry_wf_run, registry_wf_new. }
  split; [reflexivity|]. split; [exact Hwf|].
  exact (disconnect_empties_registry three_subscribers 0 eq_refl Hwf).
Defined.

End ClosingTheClient.

(** * Callbacks that call back into the client *)

Section ReentrantDispatch.
Import Client Trace.
Import Reentrant.

Lemma budget_set (dataPoint : MarketDataPoint) (k : string) (entry : Subscription)
    (entries : list (string * Subscription)) :
  (budget dataPoint (JsMap.set k entry entries)
   <= budget dataPoint entries + S (weight dataPoint (callback entry dataPoint)))%nat.
Proof.
  induction entries as [|[k' v'] rest IH]; simpl; [lia|].
  destruct (String.eqb k' k); simpl; lia.
Qed.

Lemma budget_delete (dataPoint : MarketDataPoint) (k : string)
    (entries : list (string * Subscription)) :
  (budget dataPoint (JsMap.delete k entries) <= budget dataPoint entries)%nat.
Proof.
  induction entries as [|[k' v'] rest IH]; simpl; [lia|].
  destruct (negb (String.eqb k' k)); simpl; lia.
Qed.

Lemma budget_length (dataPoint : MarketDataPoint) (entries : list (string * Subscription)) :
  (length entries <= budget dataPoint entries)%nat.
Proof. induction entries as [|e rest IH]; simpl; lia. Qed.

(** A callback adds to the walk no more than its weight. *)
Lemma exec_budget (dataPoint : MarketDataPoint) (s : Script) :
  forall (w : World) (remaining : list (string * Subscription)),
  (budget dataPoint (snd (fst (fst (exec s w remaining))))
   <= budget dataPoint remaining + weight dataPoint s)%nat.
Proof.
  induction s as [ | e | now random secs flds cb IHcb next IHnext
                 | k next IHnext | next IHnext | next IHnext ];
    intros w remaining; simpl.
  - lia.
  - lia.
  - match goal with |- context [exec next ?w1 ?r1] =>
      pose proof (IHnext w1 r1) as H; destruct (exec next w1 r1) as [[[w2 r2] e2] c]
    end.
    simpl in *.
    pose proof (budget_set dataPoint (subscriptionId now random)
                  {| id := subscriptionId now random; securities := secs;
                     fields := flds; callback := cb |} remaining) as Hs.
    simpl in Hs.
    destruct (JsMap.has _ (subscriptions (this w)) && negb (JsMap.has _ remaining)); lia.
  - destruct (unsubscribe k w) as [w1 e1].
    pose proof (IHnext w1 (JsMap.delete k remaining)) as H.
    destruct (exec next w1 (JsMap.delete k remaining)) as [[[w2 r2] e2] c]. simpl in *.
    pose proof (budget_delete dataPoint k remaining). lia.
  - destruct (disconnect w) as [w1 e1].
    match goal with |- context [exec next w1 ?r1] =>
      pose proof (IHnext w1 r1) as H; destruct (exec next w1 r1) as [[[w2 r2] e2] c]
    end.
    simpl in *. destruct (wsClient (this w)); simpl in *; lia.
  - pose proof (IHnext (connected (this w)) w remaining) as H.
    destruct (connected (this w)); lia.
Qed.

Lemma visit_enough (dataPoint : MarketDataPoint) :
  forall (fuel1 fuel2 : nat) (w : World) (remaining : list (string * Subscription)),
  (budget dataPoint remaining <= fuel1)%nat ->
  (budget dataPoint remaining <= fuel2)%nat ->
  visit fuel1 dataPoint w remaining = visit fuel2 dataPoint w remaining.
Proof.
  induction fuel1 as [|fuel1 IH]; intros fuel2 w [|[k s] rest] H1 H2;
    try (destruct fuel2; reflexivity); simpl in H1, H2; [lia|].
  destruct fuel2 as [|fuel2]; [lia|]. simpl.
  destruct (matchesSecurity _ _) as [[|]|err]; [ | apply IH; lia | reflexivity].
  pose proof (exec_budget dataPoint (callback s dataPoint) w rest) as Hb.
  destruct (exec (callback s dataPoint) w rest) as [[[w1 rest1] e1] c]. simpl in Hb.
  destruct c as [u|err]; [|reflexivity].
  rewrite (IH fuel2 w1 rest1); [reflexivity | lia | lia].
Qed.

(** The walk of [forEach_subscription] visits every entry it has to: more
    fuel than its budget changes nothing. *)
Lemma visit_never_runs_out (dataPoint : MarketDataPoint) (fuel : nat) (w : World) :
  (budget dataPoint (subscriptions (this w)) <= fuel)%nat ->
  visit fuel dataPoint w (subscriptions (this w)) = forEach_subscription dataPoint w.
Proof. intros H. apply visit_enough; [exact H | lia]. Qed.










(** On callbacks that make no call, the handler is that of [Client]. *)
Lemma on_message_embed (JSON_parse : string -> option Js.value) (data : string)
    (w : Client.World) :
  on_message JSON_parse data (embed w)
    = (embed (fst (Client.on_message JSON_parse data w)),
       snd (Client.on_message JSON_parse data w)).
Proof.
  assert (Hwalk : forall dataPoint (subs : list (string * BloombergSubscription)) fuel w',
            (length subs <= fuel)%nat ->
            visit fuel dataPoint w'
              (map (fun e => (fst e,
                              {| id := Bloomberg.id (snd e);
                                 securities := Bloomberg.securities (snd e);
                                 fields := Bloomberg.fields (snd e);
                                 callback := plain (Bloomberg.callback (snd e)) |})) subs)
            = (w', fst (Client.forEach_subscription dataPoint subs),
                   snd (Client.forEach_subscription dataPoint subs))).
  { intros dataPoint. induction subs as [|[k s] rest IH]; intros fuel w' Hf.
    - destruct fuel; reflexivity.
    - destruct fuel as [|fuel]; [simpl in Hf; lia|].
      rewrite forEach_subscription_cons. cbn [map visit fst snd securities callback id].
      assert (Hrest := IH fuel w' ltac:(simpl in Hf; lia)).
      destruct (matchesSecurity _ _) as [[|]|err]; [ | exact Hrest | reflexivity].
      assert (Hs : plain (Bloomberg.callback s) dataPoint =
                   match Bloomberg.callback s dataPoint with
                   | Js.Normal _ => Return
                   | Js.Thrown e => Throw e
                   end) by reflexivity.
      rewrite Hs. destruct (Bloomberg.callback s dataPoint) as [u|err]; cbn [exec].
      + rewrite Hrest. reflexivity.
      + reflexivity. }
  unfold on_message, Client.on_message. destruct (JSON_parse data) as [message|]; [|reflexivity].
  unfold handleWebSocketMessage, Client.handleWebSocketMessage.
  unfold mbind, action_bind, lift, perform.
  destruct (Js.get message "type") as [ty|err]; [|reflexivity]. cbn [fst snd].
  destruct (Js.strict_eq_string "marketData" ty); [|reflexivity].
  destruct (dataPoint_of message) as [dataPoint|err]; [|reflexivity]. cbn [fst snd].
  unfold forEach_subscription.
  pose proof (Hwalk dataPoint (Client.subscriptions (Client.this w))
                (budget dataPoint (subscriptions (this (embed w)))) (embed w)) as H.
  change (map _ (Client.subscriptions (Client.this w)))
    with (subscriptions (this (embed w))) in H.
  rewrite H.
  - destruct (Client.forEach_subscription dataPoint (Client.subscriptions (Client.this w)))
      as [effects [u|err]]; cbn; rewrite ?app_nil_r; reflexivity.
  - etransitivity; [|apply budget_length].
    cbn [embed this subscriptions]. rewrite length_map. reflexivity.
Qed.

End ReentrantDispatch.


Section ReentrantSamples.
Import Client Sample Sample4 Sample5 Trace.
Import Reentrant.








(** A tick whose timestamp [new Date] cannot convert reaches no callback:
    the exception leaves the handler before the registry is walked. *)
Example undated_tick_is_reported :
  dataPoint_of tick_undated
    = Js.Thrown (Js.TypeError "Cannot convert object to primitive value") /\
  step sample_parse4 three_subscribers (WsMessage "tick undated")
    = (three_subscribers, [parse_failure]) /\
  on_message sample_parse4 "tick undated" three_scripts = (three_scripts, [parse_failure]).
Proof. repeat split. Qed.

End ReentrantSamples.
